(** * Bannerlord mod generator: a shallow embedding of [generate_mod.py]

    The script scaffolds a mod project: it creates a directory tree, renders
    five text templates by literal placeholder substitution, and writes a
    README.  The embedding follows the script function by function:

    - Python [str] is [string]; [str.replace] is [str_replace], a
      left-to-right scan for non-overlapping occurrences;
    - a Python [dict] with string keys is a [gmap string string]; a dict
      whose iteration order matters ([TEMPLATES], [replacements]) is an
      association list in insertion order;
    - [pathlib.Path] is the list of its [parts] (POSIX flavour);
    - the file system is a finite map from paths to nodes, threaded together
      with the lines printed on standard output through a state-and-exception
      monad [M]; a raised exception keeps the world as it was at the raise.

    Outside the model: text encodings, permissions, symbolic links, the
    meaning of [..] in a path, and the parsing of the command line by
    [argparse] ([main] starts from the options that were given). *)

From stdpp Require Import base option list gmap strings fin_maps.
From Stdlib Require Import Ascii.

(** ** Python exceptions raised by the modelled code *)

Definition path := list string.

Inductive exn :=
  | KeyError (key : string)
  | FileNotFoundError (p : path)
  | FileExistsError (p : path)
  | NotADirectoryError (p : path)
  | IsADirectoryError (p : path)
  | SystemExit (code : nat).

(** Pure code that may raise: [inl e] is a raised exception. *)
Definition result (A : Type) : Type := exn + A.

Definition rbind {A B} (r : result A) (k : A → result B) : result B :=
  match r with
  | inl e => inl e
  | inr a => k a
  end.

(** ** Strings *)

(** [s.startswith(p)] *)
Fixpoint starts_with (p s : string) : bool :=
  match p, s with
  | EmptyString, _ => true
  | String _ _, EmptyString => false
  | String a p', String b s' => if Ascii.eqb a b then starts_with p' s' else false
  end.

(** The scan of [str.replace] for a non-empty [old]: at a position where
    [old] starts, [new] is emitted and the next [length old - 1] characters
    are skipped; elsewhere the character is copied. *)
Fixpoint replace_scan (old new : string) (skip : nat) (s : string) : string :=
  match s with
  | EmptyString => EmptyString
  | String c s' =>
      match skip with
      | S k => replace_scan old new k s'
      | O =>
          if starts_with old s
          then new +:+ replace_scan old new (String.length old - 1) s'
          else String c (replace_scan old new 0 s')
      end
  end.

(** [s.replace("", new)] puts [new] before every character and at the end. *)
Fixpoint interleave (new s : string) : string :=
  match s with
  | EmptyString => new
  | String c s' => new +:+ String c (interleave new s')
  end.

(** [s.replace(old, new)] *)
Definition str_replace (s old new : string) : string :=
  match old with
  | EmptyString => interleave new s
  | String _ _ => replace_scan old new 0 s
  end.

(** ** The template table and placeholder substitution *)

(** [TEMPLATES]: output name ↦ template file name, in insertion order. *)
Definition TEMPLATES : list (string * string) :=
  [ ("SubModule.cs", "SubModule.cs.template");
    ("ModSettings.cs", "ModSettings.cs.template");
    ("Behavior.cs", "CampaignBehavior.cs.template");
    ("SubModule.xml", "SubModule.xml.template");
    ("Project.csproj", "ModProject.csproj.template") ].

(** [config[key]] *)
Definition getitem (config : gmap string string) (key : string) : result string :=
  match config !! key with
  | Some v => inr v
  | None => inl (KeyError key)
  end.

(** [config.get(key, default)] *)
Definition dict_get (config : gmap string string) (key default : string) : string :=
  match config !! key with
  | Some v => v
  | None => default
  end.

(** The dict literal [replacements] of [replace_placeholders]; its values
    are evaluated top to bottom, so the first missing key raises. *)
Definition replacements (config : gmap string string) : result (list (string * string)) :=
  rbind (getitem config "mod_id") (λ mod_id,
  rbind (getitem config "mod_name") (λ mod_name,
  rbind (getitem config "namespace") (λ namespace,
  rbind (getitem config "author") (λ author,
  rbind (getitem config "version") (λ version,
  inr [ ("${ModId}", mod_id);
        ("${ModName}", mod_name);
        ("${ModNamespace}", namespace);
        ("${Author}", author);
        ("${Version}", version);
        ("${ModDescription}", dict_get config "description" "A Bannerlord mod") ]))))).

(** The [for placeholder, value in replacements.items()] loop. *)
Definition apply_replacements (rs : list (string * string)) (content : string) : string :=
  fold_left (λ content pv, str_replace content pv.1 pv.2) rs content.

Definition replace_placeholders (content : string) (config : gmap string string)
  : result string :=
  rbind (replacements config) (λ rs, inr (apply_replacements rs content)).

(** ** [pathlib] paths (POSIX flavour)

    A path is the list of its [parts]; an absolute path starts with the
    anchor part ["/"] (or ["//"]), the empty list is [Path(".")].  Parts are
    compared literally: [".."] and symbolic links are not interpreted. *)

(** The pieces of [s] between slashes; never the empty list. *)
Fixpoint split_slash (s : string) : list string :=
  match s with
  | EmptyString => [EmptyString]
  | String c s' =>
      if Ascii.eqb c "/" then EmptyString :: split_slash s'
      else match split_slash s' with
           | [] => [String c EmptyString]
           | piece :: pieces => String c piece :: pieces
           end
  end.

(** Empty pieces and ["."] pieces are dropped when a path is parsed. *)
Definition is_name (piece : string) : bool :=
  negb (String.eqb piece "") && negb (String.eqb piece ".").

(** The root of a path string: exactly two leading slashes are kept. *)
Definition path_root (s : string) : option string :=
  match s with
  | String "/" (String "/" (String "/" _)) => Some "/"
  | String "/" (String "/" _) => Some "//"
  | String "/" _ => Some "/"
  | _ => None
  end.

(** [Path(s)] *)
Definition Path (s : string) : path :=
  match path_root s with
  | Some r => [r]
  | None => []
  end ++ filter (λ piece, is_name piece = true) (split_slash s).

(** [p / s]: an absolute right operand replaces the left one. *)
Definition path_join (p : path) (s : string) : path :=
  match path_root s with
  | Some _ => Path s
  | None => p ++ Path s
  end.

Infix "//" := path_join (at level 40, left associativity).

Definition is_anchor (part : string) : bool := starts_with "/" part.

(** A path that is only an anchor, or empty, is its own parent. *)
Definition is_root (p : path) : bool :=
  match p with
  | [] => true
  | [a] => is_anchor a
  | _ => false
  end.

(** [p.parent] *)
Definition path_parent (p : path) : path :=
  if is_root p then p else removelast p.

Fixpoint join_slash (parts : list string) : string :=
  match parts with
  | [] => ""
  | [a] => a
  | a :: rest => a +:+ "/" +:+ join_slash rest
  end.

(** [str(p)] *)
Definition path_str (p : path) : string :=
  match p with
  | [] => "."
  | a :: rest => if is_anchor a then a +:+ join_slash rest else join_slash p
  end.

(** ** The file system and the program's effects

    The file system maps a path to what is there.  It is meant to be closed
    under parents (an entry lies in a directory); the operations keep it so
    and look no further than the entry and its parent. *)

Inductive node :=
  | Dir
  | File (content : string).

Record world := World {
  files : gmap path node;
  stdout : list string;
}.

(** What is at [p]: the current directory and the root always exist. *)
Definition stat (fs : gmap path node) (p : path) : option node :=
  if is_root p then Some Dir else fs !! p.

(** A computation reads and changes the world and returns or raises; the
    world at the point of a raise is kept. *)
Definition M (A : Type) : Type := world → result A * world.

Definition ret {A} (a : A) : M A := λ w, (inr a, w).

Definition raise {A} (e : exn) : M A := λ w, (inl e, w).

Definition bind {A B} (m : M A) (k : A → M B) : M B :=
  λ w, match m w with
       | (inl e, w') => (inl e, w')
       | (inr a, w') => k a w'
       end.

(** [try: m except e: h e] *)
Definition catch {A} (m : M A) (h : exn → M A) : M A :=
  λ w, match m w with
       | (inl e, w') => h e w'
       | (inr a, w') => (inr a, w')
       end.

Definition lift {A} (r : result A) : M A := λ w, (r, w).

#[global] Instance M_ret : MRet M := @ret.
#[global] Instance M_bind : MBind M := λ A B k m, bind m k.

(** [print(line)] *)
Definition print (line : string) : M unit :=
  λ w, (inr tt, World (files w) (stdout w ++ [line])).

(** [p.exists()] *)
Definition path_exists (p : path) : M bool :=
  λ w, (inr (match stat (files w) p with Some _ => true | None => false end), w).

(** [p.is_dir()] *)
Definition is_dir (p : path) : M bool :=
  λ w, (inr (match stat (files w) p with Some Dir => true | _ => false end), w).

(** [p.read_text()] *)
Definition read_text (p : path) : M string :=
  λ w, match stat (files w) p with
       | Some (File content) => (inr content, w)
       | Some Dir => (inl (IsADirectoryError p), w)
       | None => (inl (FileNotFoundError p), w)
       end.

(** [p.write_text(content)]: an existing file is truncated; a new file needs
    its directory. *)
Definition write_text (p : path) (content : string) : M unit :=
  λ w, let written := World (<[p := File content]> (files w)) (stdout w) in
       match stat (files w) p with
       | Some Dir => (inl (IsADirectoryError p), w)
       | Some (File _) => (inr tt, written)
       | None =>
           match stat (files w) (path_parent p) with
           | Some Dir => (inr tt, written)
           | Some (File _) => (inl (NotADirectoryError p), w)
           | None => (inl (FileNotFoundError p), w)
           end
       end.

(** [os.mkdir(p)] *)
Definition os_mkdir (p : path) : M unit :=
  λ w, match stat (files w) p with
       | Some _ => (inl (FileExistsError p), w)
       | None =>
           match stat (files w) (path_parent p) with
           | Some Dir => (inr tt, World (<[p := Dir]> (files w)) (stdout w))
           | Some (File _) => (inl (NotADirectoryError p), w)
           | None => (inl (FileNotFoundError p), w)
           end
       end.

(** The [except OSError] clause of [Path.mkdir]: an existing directory is
    accepted under [exist_ok]. *)
Definition mkdir_oserror (p : path) (exist_ok : bool) (e : exn) : M unit :=
  d ← is_dir p;
  if negb exist_ok || negb d then raise e else ret tt.

(** [p.mkdir(exist_ok=exist_ok)], that is [parents=False]. *)
Definition mkdir (p : path) (exist_ok : bool) : M unit :=
  catch (os_mkdir p) (λ e,
    match e with
    | FileNotFoundError _ => raise e
    | _ => mkdir_oserror p exist_ok e
    end).

(** [p.mkdir(parents=True, exist_ok=exist_ok)] with [p = rev rparts]: on
    [FileNotFoundError] the parent is made first, recursively, and [p]
    itself afterwards.  The recursion is on the reversed parts, whose tail is
    the parent's. *)
Fixpoint mkdir_parents_rev (rparts : list string) (exist_ok : bool) : M unit :=
  let p := rev rparts in
  catch (os_mkdir p) (λ e,
    match e with
    | FileNotFoundError _ =>
        match rparts with
        | [] => raise e
        | _ :: rparent =>
            if is_root p then raise e
            else mkdir_parents_rev rparent true;; mkdir p exist_ok
        end
    | _ => mkdir_oserror p exist_ok e
    end).

Definition mkdir_parents (p : path) (exist_ok : bool) : M unit :=
  mkdir_parents_rev (rev p) exist_ok.

(** [for x in xs: body x] *)
Fixpoint for_each {A} (xs : list A) (body : A → M unit) : M unit :=
  match xs with
  | [] => ret tt
  | x :: xs' => body x;; for_each xs' body
  end.

(** ** [create_mod_structure] *)

Definition nl : string := String "010" "".

(** The branch of the loop body that picks the output path. *)
Definition out_path (mod_dir src_dir : path) (mod_id output_name : string) : path :=
  if String.eqb output_name "SubModule.xml" then mod_dir // "SubModule.xml"
  else if String.eqb output_name "Project.csproj" then src_dir // (mod_id +:+ ".csproj")
  else if String.eqb output_name "Behavior.cs" then src_dir // (mod_id +:+ "Behavior.cs")
  else if String.eqb output_name "ModSettings.cs" then src_dir // (mod_id +:+ "Settings.cs")
  else src_dir // output_name.

(** The body of the [for output_name, template_name in TEMPLATES.items()]
    loop.  [mod_id] is [config["mod_id"]], read before the loop. *)
Definition process_template (mod_dir src_dir templates_dir : path)
    (config : gmap string string) (mod_id : string) (entry : string * string) : M unit :=
  let template_path := templates_dir // entry.2 in
  found ← path_exists template_path;
  if negb found then
    print ("Warning: Template not found: " +:+ path_str template_path)
  else
    content ← read_text template_path;
    content ← lift (replace_placeholders content config);
    let out := out_path mod_dir src_dir mod_id entry.1 in
    write_text out content;;
    print ("Created: " +:+ path_str out).

Definition readme_content (mod_name mod_id : string) : string :=
  "# " +:+ mod_name +:+ "

A Mount & Blade II: Bannerlord mod.

## Requirements

- Bannerlord.Harmony
- Bannerlord.ButterLib  
- Bannerlord.UIExtenderEx
- Bannerlord.MCM (Mod Configuration Menu)

## Installation

1. Install required dependencies from NexusMods or Steam Workshop
2. Copy the `" +:+ mod_id +:+ "` folder to your Bannerlord `Modules` directory
3. Enable the mod in the launcher

## Building

1. Open `src/" +:+ mod_id +:+ ".csproj` in Visual Studio or Rider
2. Restore NuGet packages
3. Build the solution

## License

MIT License
".

Definition create_mod_structure (output_dir : path) (config : gmap string string)
    (templates_dir : path) : M unit :=
  mod_id ← lift (getitem config "mod_id");
  let mod_dir := output_dir // mod_id in
  mkdir_parents mod_dir true;;
  mkdir_parents (mod_dir // "bin" // "Win64_Shipping_Client") true;;
  mkdir (mod_dir // "ModuleData") true;;
  let src_dir := mod_dir // "src" in
  mkdir src_dir true;;
  for_each TEMPLATES (process_template mod_dir src_dir templates_dir config mod_id);;
  mod_name ← lift (getitem config "mod_name");
  write_text (mod_dir // "README.md") (readme_content mod_name mod_id);;
  print (nl +:+ "Mod created successfully at: " +:+ path_str mod_dir);;
  print (nl +:+ "Next steps:");;
  print ("  1. Update GameFolder path in src/" +:+ mod_id +:+ ".csproj");;
  print "  2. Open the project in Visual Studio/Rider";;
  print "  3. Restore NuGet packages";;
  print "  4. Build and test!".

(** ** [main] *)

(** What the command line gave: the positional mod id and the options that
    were present. *)
Record cli := Cli {
  cli_mod_id : string;
  cli_name : option string;
  cli_namespace : option string;
  cli_author : option string;
  cli_version : option string;
  cli_output : option string;
  cli_templates : option string;
}.

(** The namespace returned by [parser.parse_args()]. *)
Record Namespace := {
  args_mod_id : string;
  args_name : option string;
  args_namespace : option string;
  args_author : string;
  args_version : string;
  args_output : string;
  args_templates : option string;
}.

(** Absent options take the [default=] of their [add_argument], or [None]. *)
Definition parse_args (c : cli) : Namespace :=
  {| args_mod_id := cli_mod_id c;
     args_name := cli_name c;
     args_namespace := cli_namespace c;
     args_author := default "Anonymous" (cli_author c);
     args_version := default "1.0.0" (cli_version c);
     args_output := default "." (cli_output c);
     args_templates := cli_templates c |}.

(** [o or d] for an optional string: [None] and [""] are falsy. *)
Definition or_else (o : option string) (d : string) : string :=
  match o with
  | Some (String c s) => String c s
  | _ => d
  end.

(** The [config] dict literal of [main]. *)
Definition build_config (args : Namespace) : gmap string string :=
  list_to_map
    [ ("mod_id", args_mod_id args);
      ("mod_name", or_else (args_name args) (args_mod_id args));
      ("namespace", or_else (args_namespace args) (args_mod_id args));
      ("author", args_author args);
      ("version", args_version args) ].

(** The templates directory: [--templates] when given and non-empty, else
    [assets/templates] beside the directory of the script file. *)
Definition find_templates_dir (script_file : string) (args : Namespace) : path :=
  match args_templates args with
  | Some (String c s) => Path (String c s)
  | _ => path_parent (path_parent (Path script_file)) // "assets" // "templates"
  end.

(** [main()], from the parsed command line on; [script_file] is [__file__]. *)
Definition main (script_file : string) (c : cli) : M unit :=
  let args := parse_args c in
  let config := build_config args in
  let templates_dir := find_templates_dir script_file args in
  found ← path_exists templates_dir;
  if negb found then
    print ("Error: Templates directory not found: " +:+ path_str templates_dir);;
    raise (SystemExit 1)
  else
    create_mod_structure (Path (args_output args)) config templates_dir.

(** ** Notions used to state the properties *)

(** [needle in hay] *)
Fixpoint contains (needle hay : string) : bool :=
  starts_with needle hay ||
  match hay with
  | EmptyString => false
  | String _ hay' => contains needle hay'
  end.

(** [c in s] for a single character. *)
Fixpoint char_in (c : ascii) (s : string) : bool :=
  match s with
  | EmptyString => false
  | String a s' => Ascii.eqb c a || char_in c s'
  end.

(** The keys of the [replacements] dict. *)
Definition PLACEHOLDERS : list string :=
  [ "${ModId}"; "${ModName}"; "${ModNamespace}"; "${Author}"; "${Version}";
    "${ModDescription}" ].

(** A template seen as a sequence of pieces: ordinary characters and
    placeholder tokens. *)
Inductive piece :=
  | Chr (c : ascii)
  | Hole (name : string).

Definition piece_text (t : piece) : string :=
  match t with
  | Chr c => String c EmptyString
  | Hole name => name
  end.

Fixpoint pieces_text (ts : list piece) : string :=
  match ts with
  | [] => EmptyString
  | t :: ts' => piece_text t +:+ pieces_text ts'
  end.

(** In a well-formed template every dollar sign starts a placeholder. *)
Definition piece_ok (t : piece) : Prop :=
  match t with
  | Chr c => c ≠ "$"%char
  | Hole name => name ∈ PLACEHOLDERS
  end.

Fixpoint chars (s : string) : list piece :=
  match s with
  | EmptyString => []
  | String c s' => Chr c :: chars s'
  end.

(** Reading a template as pieces: a dollar sign must start a placeholder,
    whose remaining characters are skipped. *)
Fixpoint scan_pieces (skip : nat) (s : string) : option (list piece) :=
  match s with
  | EmptyString => Some []
  | String c s' =>
      match skip with
      | S k => scan_pieces k s'
      | O =>
          if Ascii.eqb c "$" then
            match List.find (λ p, starts_with p s) PLACEHOLDERS with
            | Some p => cons (Hole p) <$> scan_pieces (String.length p - 1) s'
            | None => None
            end
          else cons (Chr c) <$> scan_pieces 0 s'
      end
  end.

(** Every dollar sign of [s] starts one of the six placeholders. *)
Definition dollars_start_placeholders (s : string) : bool :=
  match scan_pieces 0 s with
  | Some _ => true
  | None => false
  end.

Fixpoint string_drop (n : nat) (s : string) : string :=
  match n, s with
  | S k, String _ s' => string_drop k s'
  | _, _ => s
  end.

(** Filling the holes named [name] with [value]. *)
Definition fill_piece (name value : string) (t : piece) : list piece :=
  match t with
  | Chr c => [Chr c]
  | Hole q => if String.eqb q name then chars value else [Hole q]
  end.

Definition fill (name value : string) (ts : list piece) : list piece :=
  ts ≫= fill_piece name value.

(** Filling every hole from a table at once. *)
Definition render_piece (table : gmap string string) (t : piece) : list piece :=
  match t with
  | Chr c => [Chr c]
  | Hole q => match table !! q with
              | Some value => chars value
              | None => [Hole q]
              end
  end.

Definition render (table : gmap string string) (ts : list piece) : list piece :=
  ts ≫= render_piece table.

(** The file system is closed under parents: what is there lies in a
    directory. *)
Definition fs_closed (fs : gmap path node) : Prop :=
  ∀ p n, fs !! p = Some n → stat fs (path_parent p) = Some Dir.

(** A computation keeps the file system closed under parents, whether it
    returns or raises. *)
Definition keeps_closed {A} (m : M A) : Prop :=
  ∀ w r w', fs_closed (files w) → m w = (r, w') → fs_closed (files w').

(** The effect of a sequence of [write_text] calls on the file system. *)
Definition apply_writes (ws : list (path * string)) (fs : gmap path node)
  : gmap path node :=
  fold_left (λ fs w, <[w.1 := File w.2]> fs) ws fs.

Fixpoint last_char (s : string) : option ascii :=
  match s with
  | EmptyString => None
  | String c EmptyString => Some c
  | String _ s' => last_char s'
  end.

(** The last character of the last part of a path. *)
Definition path_last_char (p : path) : option ascii :=
  last p ≫= last_char.

(** [fs'] is [fs] with new directories, all of them at paths in [allowed]. *)
Definition adds_dirs (allowed : path → Prop) (fs fs' : gmap path node) : Prop :=
  ∀ q, fs' !! q = fs !! q ∨ (fs !! q = None ∧ fs' !! q = Some Dir ∧ allowed q).

(** No regular file lies at [p] or at a path leading to it. *)
Definition no_file_on_the_way (fs : gmap path node) (p : path) : Prop :=
  ∀ q content, q `prefix_of` p → stat fs q ≠ Some (File content).

(** [fs'] can follow [fs] in a run once the directories are made: the same
    directories, the same template files, nothing removed. *)
Definition settled (fs fs' : gmap path node) : Prop :=
  (∀ q, stat fs' q = Some Dir ↔ stat fs q = Some Dir) ∧
  (∀ q, path_last_char q = Some "e"%char → stat fs' q = stat fs q) ∧
  (∀ q, stat fs' q = None → stat fs q = None).

Section loop_notions.
Variables (mod_dir src_dir templates_dir : path).
Variables (config : gmap string string) (mod_id : string).

(** What one turn of the template loop writes, judged from [fs]. *)
Definition planned_write (fs : gmap path node) (entry : string * string)
  : list (path * string) :=
  match stat fs (templates_dir // entry.2) with
  | Some (File content) =>
      match replace_placeholders content config with
      | inr text => [(out_path mod_dir src_dir mod_id entry.1, text)]
      | inl _ => []
      end
  | _ => []
  end.

(** What one turn of the template loop prints, judged from [fs]. *)
Definition loop_message (fs : gmap path node) (entry : string * string) : string :=
  match stat fs (templates_dir // entry.2) with
  | None => "Warning: Template not found: " +:+ path_str (templates_dir // entry.2)
  | Some _ => "Created: " +:+ path_str (out_path mod_dir src_dir mod_id entry.1)
  end.

(** One turn of the loop goes through: the template is missing, or it is
    a regular file that renders and whose output can be written. *)
Definition entry_ok (fs : gmap path node) (entry : string * string) : Prop :=
  match stat fs (templates_dir // entry.2) with
  | None => True
  | Some Dir => False
  | Some (File content) =>
      let out := out_path mod_dir src_dir mod_id entry.1 in
      (∃ text, replace_placeholders content config = inr text) ∧
      stat fs out ≠ Some Dir ∧
      (stat fs out = None → stat fs (path_parent out) = Some Dir)
  end.

(** The exception that one turn of the loop raises, if any, judged from
    [fs]. *)
Definition entry_error (fs : gmap path node) (entry : string * string) : option exn :=
  let template := templates_dir // entry.2 in
  let out := out_path mod_dir src_dir mod_id entry.1 in
  match stat fs template with
  | None => None
  | Some Dir => Some (IsADirectoryError template)
  | Some (File content) =>
      match replace_placeholders content config with
      | inl e => Some e
      | inr _ =>
          match stat fs out with
          | Some Dir => Some (IsADirectoryError out)
          | Some (File _) => None
          | None =>
              match stat fs (path_parent out) with
              | Some Dir => None
              | Some (File _) => Some (NotADirectoryError out)
              | None => Some (FileNotFoundError out)
              end
          end
      end
  end.
End loop_notions.

(** The lines printed after the README is written. *)
Definition closing_lines (mod_dir : path) (mod_id : string) : list string :=
  [ nl +:+ "Mod created successfully at: " +:+ path_str mod_dir;
    nl +:+ "Next steps:";
    "  1. Update GameFolder path in src/" +:+ mod_id +:+ ".csproj";
    "  2. Open the project in Visual Studio/Rider";
    "  3. Restore NuGet packages";
    "  4. Build and test!" ].

(** The directories a run may make under and on the way to [mod_dir]. *)
Definition made_dirs (mod_dir : path) (q : path) : Prop :=
  q `prefix_of` mod_dir ++ ["bin"; "Win64_Shipping_Client"] ∨
  q = mod_dir ++ ["ModuleData"] ∨
  q = mod_dir ++ ["src"].

(** The run is not obstructed: no regular file lies where it makes a
    directory, no directory where it writes the README. *)
Definition tree_unobstructed (fs : gmap path node) (mod_dir : path) : Prop :=
  no_file_on_the_way fs (mod_dir ++ ["bin"; "Win64_Shipping_Client"]) ∧
  (∀ content, stat fs (mod_dir ++ ["ModuleData"]) ≠ Some (File content)) ∧
  (∀ content, stat fs (mod_dir ++ ["src"]) ≠ Some (File content)) ∧
  stat fs (mod_dir ++ ["README.md"]) ≠ Some Dir.

(** Where the output of a template goes, below the mod directory, when the
    mod id is a plain name. *)
Definition out_rel (mod_id output_name : string) : list string :=
  if String.eqb output_name "SubModule.xml" then ["SubModule.xml"]
  else if String.eqb output_name "Project.csproj" then ["src"; mod_id +:+ ".csproj"]
  else if String.eqb output_name "Behavior.cs" then ["src"; mod_id +:+ "Behavior.cs"]
  else if String.eqb output_name "ModSettings.cs" then ["src"; mod_id +:+ "Settings.cs"]
  else ["src"; output_name].

(** A template the run can deal with: it is missing, and the mod directory
    is not made at or below its path; or it is a regular file, the mod id is
    a plain name, the configuration has the keys to render it, and no
    directory lies where its output goes. *)
Definition template_ready (fs : gmap path node) (mod_dir templates_dir : path)
    (config : gmap string string) (mod_id : string) (entry : string * string) : Prop :=
  match stat fs (templates_dir // entry.2) with
  | None => ¬ (templates_dir // entry.2) `prefix_of` mod_dir
  | Some Dir => False
  | Some (File content) =>
      char_in "/" mod_id = false ∧
      (∃ rs, replacements config = inr rs) ∧
      stat fs (mod_dir ++ out_rel mod_id entry.1) ≠ Some Dir
  end.

(** A mod id that is one ordinary path part. *)
Definition plain_name (s : string) : bool :=
  negb (char_in "/" s) && is_name s && negb (String.eqb s "..").

(** Every template of the table is a regular file. *)
Definition templates_exist (fs : gmap path node) (templates_dir : path) : Prop :=
  ∀ entry, entry ∈ TEMPLATES →
    ∃ content, stat fs (templates_dir // entry.2) = Some (File content).

(** The text of the template file [name]. *)
Definition template_text (fs : gmap path node) (templates_dir : path) (name : string)
  : string :=
  match stat fs (templates_dir // name) with
  | Some (File content) => content
  | _ => ""
  end.

(** No directory lies where the output of a template goes. *)
Definition outputs_unobstructed (fs : gmap path node) (mod_dir : path)
    (mod_id : string) : Prop :=
  ∀ entry, entry ∈ TEMPLATES →
    stat fs (out_path mod_dir (mod_dir // "src") mod_id entry.1) ≠ Some Dir.

(** The mod directory is not made at or below the path of a template. *)
Definition templates_apart (mod_dir templates_dir : path) : Prop :=
  ∀ entry, entry ∈ TEMPLATES → ¬ (templates_dir // entry.2) `prefix_of` mod_dir.

Fixpoint path_prefixes (p : path) : list path :=
  match p with
  | [] => [[]]
  | a :: p' => [] :: (cons a <$> path_prefixes p')
  end.

Definition is_file_at (fs : gmap path node) (q : path) : bool :=
  match stat fs q with
  | Some (File _) => true
  | _ => false
  end.

Definition is_dir_at (fs : gmap path node) (q : path) : bool :=
  match stat fs q with
  | Some Dir => true
  | _ => false
  end.

(** [tree_unobstructed], as a check that can be run. *)
Definition tree_unobstructed_b (fs : gmap path node) (mod_dir : path) : bool :=
  forallb (λ q, negb (is_file_at fs q))
    (path_prefixes (mod_dir ++ ["bin"; "Win64_Shipping_Client"])) &&
  negb (is_file_at fs (mod_dir ++ ["ModuleData"])) &&
  negb (is_file_at fs (mod_dir ++ ["src"])) &&
  negb (is_dir_at fs (mod_dir ++ ["README.md"])).

(** The end of [create_mod_structure], from the README on. *)
Definition write_readme_and_close (config : gmap string string) (mod_dir : path)
    (mod_id : string) : M unit :=
  mod_name ← lift (getitem config "mod_name");
  write_text (mod_dir // "README.md") (readme_content mod_name mod_id);;
  print (nl +:+ "Mod created successfully at: " +:+ path_str mod_dir);;
  print (nl +:+ "Next steps:");;
  print ("  1. Update GameFolder path in src/" +:+ mod_id +:+ ".csproj");;
  print "  2. Open the project in Visual Studio/Rider";;
  print "  3. Restore NuGet packages";;
  print "  4. Build and test!".

(** The steps of a successful run of [create_mod_structure], each starting
    where the one before stopped. *)
Definition run_steps (output_dir : path) (config : gmap string string)
    (templates_dir : path) (mod_id mod_name : string)
    (w w1 w2 w3 w4 w5 w6 : world) : Prop :=
  mkdir_parents (output_dir // mod_id) true w = (inr tt, w1) ∧
  mkdir_parents (output_dir // mod_id // "bin" // "Win64_Shipping_Client") true w1
    = (inr tt, w2) ∧
  mkdir (output_dir // mod_id // "ModuleData") true w2 = (inr tt, w3) ∧
  mkdir (output_dir // mod_id // "src") true w3 = (inr tt, w4) ∧
  for_each TEMPLATES
    (process_template (output_dir // mod_id) (output_dir // mod_id // "src")
       templates_dir config mod_id) w4 = (inr tt, w5) ∧
  write_text (output_dir // mod_id // "README.md")
    (readme_content mod_name mod_id) w5 = (inr tt, w6).

(** ** Example inputs *)

(** A configuration whose mod id is itself a placeholder. *)
Definition nested_config : gmap string string :=
  list_to_map
    [ ("mod_id", "${ModName}"); ("mod_name", "X"); ("namespace", "N");
      ("author", "A"); ("version", "1") ].

(** A configuration without dollar signs whose author is a fragment of a
    placeholder name. *)
Definition splice_config : gmap string string :=
  list_to_map
    [ ("mod_id", "M"); ("mod_name", "X"); ("namespace", "N");
      ("author", "Na"); ("version", "1") ].

Definition splice_replacements : list (string * string) :=
  [ ("${ModId}", "M"); ("${ModName}", "X"); ("${ModNamespace}", "N");
    ("${Author}", "Na"); ("${Version}", "1");
    ("${ModDescription}", "A Bannerlord mod") ].

Definition sample_config : gmap string string :=
  list_to_map
    [ ("mod_id", "MyMod"); ("mod_name", "My Mod"); ("namespace", "MyNs");
      ("author", "me"); ("version", "1.0.0") ].

Definition sample_replacements : list (string * string) :=
  [ ("${ModId}", "MyMod"); ("${ModName}", "My Mod"); ("${ModNamespace}", "MyNs");
    ("${Author}", "me"); ("${Version}", "1.0.0");
    ("${ModDescription}", "A Bannerlord mod") ].

Definition nested_replacements : list (string * string) :=
  [ ("${ModId}", "${ModName}"); ("${ModName}", "X"); ("${ModNamespace}", "N");
    ("${Author}", "A"); ("${Version}", "1");
    ("${ModDescription}", "A Bannerlord mod") ].

(** A command line that gives the templates directory [tpl] and the output
    directory [out]. *)
Definition sample_cli : cli :=
  Cli "MyMod" None None None None (Some "out") (Some "tpl").

(** A file system with nothing in it. *)
Definition empty_world : world := World ∅ [].

(** A templates directory with two of the five templates. *)
Definition sample_world : world :=
  World (list_to_map
           [ (["tpl"], Dir);
             (["tpl"; "SubModule.cs.template"], File "namespace ${ModNamespace} {}");
             (["tpl"; "SubModule.xml.template"],
              File "<Module id='${ModId}' v='${Version}'>${ModDescription}</Module>") ])
        [].

(** A templates directory with all five templates. *)
Definition full_world : world :=
  World (list_to_map
           [ (["tpl"], Dir);
             (["tpl"; "SubModule.cs.template"], File "namespace ${ModNamespace} {}");
             (["tpl"; "ModSettings.cs.template"], File "class ${ModId}Settings {}");
             (["tpl"; "CampaignBehavior.cs.template"], File "class ${ModId}Behavior {}");
             (["tpl"; "SubModule.xml.template"], File "<Id value='${ModId}'/>");
             (["tpl"; "ModProject.csproj.template"], File "<Project/>") ])
        [].

(** A configuration whose mod id has a slash. *)
Definition slash_config : gmap string string :=
  list_to_map
    [ ("mod_id", "a/b"); ("mod_name", "a/b"); ("namespace", "a/b");
      ("author", "Anonymous"); ("version", "1.0.0") ].


(** * Properties *)

(** ** The model at work *)

Example str_replace_non_overlapping : str_replace "aXXbXXX" "XX" "-" = "a-b-X".
Proof. reflexivity. Qed.

Example str_replace_empty_old : str_replace "abc" "" "-" = "-a-b-c-".
Proof. reflexivity. Qed.

Example replace_placeholders_sample :
  replace_placeholders "namespace ${ModNamespace} // ${ModId} by ${Author}, ${ModDescription}"
    sample_config
  = inr "namespace MyNs // MyMod by me, A Bannerlord mod".
Proof. vm_compute. reflexivity. Qed.

Example replace_placeholders_missing_key :
  replace_placeholders "x" (delete "author" sample_config) = inl (KeyError "author").
Proof. vm_compute. reflexivity. Qed.

Example Path_parts :
  Path "/opt//skill/./scripts/" = ["/"; "opt"; "skill"; "scripts"] ∧
  Path "//srv/x" = ["//"; "srv"; "x"] ∧
  Path "." = [] ∧
  ["out"] // "a/b" = ["out"; "a"; "b"] ∧
  ["out"] // "/abs" = ["/"; "abs"] ∧
  path_parent (path_parent (Path "/opt/skill/scripts/generate_mod.py")) = ["/"; "opt"; "skill"] ∧
  path_str ["/"; "opt"; "skill"] = "/opt/skill" ∧
  path_str [] = ".".
Proof. repeat split; vm_compute; reflexivity. Qed.

Example dollars_start_placeholders_cases :
  dollars_start_placeholders "namespace ${ModNamespace} { /* ${ModId} */ }" = true ∧
  dollars_start_placeholders "no placeholder at all" = true ∧
  dollars_start_placeholders "price: 5$" = false ∧
  dollars_start_placeholders "${Mod${Author}me}" = false ∧
  dollars_start_placeholders "${Unknown}" = false.
Proof. repeat split; vm_compute; reflexivity. Qed.

(** A run that raises half-way, and the same run again: the turn of the
    loop that went through is repeated, the next one raises as before. *)
Example rerun_after_failure :
  let r := create_mod_structure ["out"] slash_config ["tpl"] full_world in
  r.1 = inl (FileNotFoundError ["out"; "a"; "b"; "src"; "a"; "bSettings.cs"]) ∧
  stdout r.2 = ["Created: out/a/b/src/SubModule.cs"] ∧
  create_mod_structure ["out"] slash_config ["tpl"] r.2
  = (r.1, World (files r.2) (stdout r.2 ++ ["Created: out/a/b/src/SubModule.cs"])).
Proof. repeat split; vm_compute; reflexivity. Qed.

(** A run of [main] on a templates directory with two of the five
    templates. *)
Example main_sample :
  let r := main "/opt/skill/scripts/generate_mod.py" sample_cli sample_world in
  r.1 = inr tt ∧
  stdout r.2
  = [ "Created: out/MyMod/src/SubModule.cs";
      "Warning: Template not found: tpl/ModSettings.cs.template";
      "Warning: Template not found: tpl/CampaignBehavior.cs.template";
      "Created: out/MyMod/SubModule.xml";
      "Warning: Template not found: tpl/ModProject.csproj.template";
      nl +:+ "Mod created successfully at: out/MyMod";
      nl +:+ "Next steps:";
      "  1. Update GameFolder path in src/MyMod.csproj";
      "  2. Open the project in Visual Studio/Rider";
      "  3. Restore NuGet packages";
      "  4. Build and test!" ] ∧
  files r.2 !! ["out"; "MyMod"; "SubModule.xml"]
  = Some (File "<Module id='MyMod' v='1.0.0'>A Bannerlord mod</Module>") ∧
  files r.2 !! ["out"; "MyMod"; "src"; "SubModule.cs"]
  = Some (File "namespace MyMod {}") ∧
  files r.2 !! ["out"; "MyMod"; "bin"; "Win64_Shipping_Client"] = Some Dir ∧
  dom (files r.2) ∖ dom (files sample_world)
  = {[ ["out"]; ["out"; "MyMod"]; ["out"; "MyMod"; "bin"];
       ["out"; "MyMod"; "bin"; "Win64_Shipping_Client"];
       ["out"; "MyMod"; "ModuleData"]; ["out"; "MyMod"; "src"];
       ["out"; "MyMod"; "src"; "SubModule.cs"]; ["out"; "MyMod"; "SubModule.xml"];
       ["out"; "MyMod"; "README.md"] ]}.
Proof. repeat split; vm_compute; reflexivity. Qed.

(** ** Strings *)

#[local] Arguments String.append !_ _ : simpl nomatch.
#[local] Arguments Ascii.eqb : simpl never.

Lemma append_assoc (a b c : string) : (a +:+ b) +:+ c = a +:+ (b +:+ c).
Proof. induction a as [|x a IH]; simpl; [done | by rewrite IH]. Qed.

Lemma append_nil_r (a : string) : a +:+ "" = a.
Proof. induction a as [|x a IH]; simpl; [done | by rewrite IH]. Qed.

Lemma ascii_eqb_true (a b : ascii) : Ascii.eqb a b = true ↔ a = b.
Proof. apply Ascii.eqb_eq. Qed.

Lemma ascii_eqb_false (a b : ascii) : Ascii.eqb a b = false ↔ a ≠ b.
Proof. apply Ascii.eqb_neq. Qed.

Lemma starts_with_app (p r : string) : starts_with p (p +:+ r) = true.
Proof.
  induction p as [|a p IH]; simpl; [done |].
  by rewrite Ascii.eqb_refl.
Qed.

Lemma starts_with_inv (p s : string) :
  starts_with p s = true → ∃ r, s = p +:+ r.
Proof.
  revert s. induction p as [|a p IH]; intros s H; simpl in *.
  - by exists s.
  - destruct s as [|b s]; [done |].
    destruct (Ascii.eqb a b) eqn:E; [| done].
    apply ascii_eqb_true in E as ->.
    destruct (IH _ H) as [r ->]. by exists r.
Qed.

(** If [p] starts [q +:+ r], one of [p] and [q] starts the other. *)
Lemma starts_with_app_cases (p q r : string) :
  starts_with p (q +:+ r) = true →
  starts_with p q = true ∨ starts_with q p = true.
Proof.
  revert q. induction p as [|a p IH]; intros q H; simpl in *; [by left |].
  destruct q as [|b q]; simpl in *; [by right |].
  destruct (Ascii.eqb a b) eqn:E; [| done].
  apply ascii_eqb_true in E as ->. rewrite Ascii.eqb_refl.
  by apply IH.
Qed.

(** Skipping exactly the characters of [x]. *)
Lemma replace_scan_skip (old new x rest : string) :
  replace_scan old new (String.length x) (x +:+ rest) = replace_scan old new 0 rest.
Proof.
  induction x as [|c x IH]; simpl; [| done].
  by destruct rest.
Qed.

(** An occurrence at the head is replaced and the scan resumes behind it. *)
Lemma replace_scan_hit (c : ascii) (old' new rest : string) :
  replace_scan (String c old') new 0 (String c old' +:+ rest)
  = new +:+ replace_scan (String c old') new 0 rest.
Proof.
  change (String c old' +:+ rest) with (String c (old' +:+ rest)).
  cbn [replace_scan].
  change (String c (old' +:+ rest)) with (String c old' +:+ rest).
  rewrite starts_with_app.
  replace (String.length (String c old') - 1) with (String.length old')
    by (cbn [String.length]; lia).
  by rewrite replace_scan_skip.
Qed.

(** Characters other than the first one of [old] are copied. *)
Lemma replace_scan_plain (c : ascii) (old' new x rest : string) :
  char_in c x = false →
  replace_scan (String c old') new 0 (x +:+ rest)
  = x +:+ replace_scan (String c old') new 0 rest.
Proof.
  induction x as [|a x IH]; intros Hx; [done |].
  simpl in Hx. apply orb_false_elim in Hx as [Ha Hx].
  simpl. rewrite Ha. by rewrite IH.
Qed.

(** A string that does not contain [old] is left as it is. *)
Lemma replace_scan_absent (old new s : string) :
  contains old s = false → replace_scan old new 0 s = s.
Proof.
  induction s as [|a s IH]; intros H; [done |].
  simpl in H. apply orb_false_elim in H as [H1 H2].
  cbn [replace_scan]. rewrite H1. by rewrite IH.
Qed.

Lemma str_replace_absent (s old new : string) :
  old ≠ "" → contains old s = false → str_replace s old new = s.
Proof.
  intros Hne H. destruct old as [|c old']; [done |].
  by apply replace_scan_absent.
Qed.

(** The first occurrence: [u] is copied, [old] becomes [new], the rest is
    scanned in turn. *)
Lemma replace_scan_first (c : ascii) (old' new u rest : string) :
  (∀ u1 u2, u = u1 +:+ u2 → starts_with (String c old') (u2 +:+ String c old' +:+ rest) = true → u2 = "") →
  replace_scan (String c old') new 0 (u +:+ String c old' +:+ rest)
  = u +:+ new +:+ replace_scan (String c old') new 0 rest.
Proof.
  induction u as [|a u IH]; intros Hfirst.
  - apply replace_scan_hit.
  - change (String a u +:+ String c old' +:+ rest)
      with (String a (u +:+ String c old' +:+ rest)).
    cbn [replace_scan].
    destruct (starts_with _ _) eqn:E.
    + by specialize (Hfirst "" (String a u) eq_refl E).
    + rewrite IH; [done |].
      intros u1 u2 -> H. by apply (Hfirst (String a u1) u2).
Qed.




(** ** Templates as pieces *)

Lemma pieces_text_app (a b : list piece) :
  pieces_text (a ++ b) = pieces_text a +:+ pieces_text b.
Proof.
  induction a as [|t a IH]; simpl; [done |].
  by rewrite IH, append_assoc.
Qed.

Lemma pieces_text_chars (v : string) : pieces_text (chars v) = v.
Proof. induction v as [|c v IH]; simpl; [done | by rewrite IH]. Qed.

Lemma chars_ok (v : string) :
  char_in "$" v = false → Forall piece_ok (chars v).
Proof.
  induction v as [|c v IH]; simpl; intros H; constructor.
  - simpl. apply orb_false_elim in H as [H _].
    apply ascii_eqb_false in H. congruence.
  - apply IH. by apply orb_false_elim in H as [_ ?].
Qed.

Ltac each_placeholder H :=
  unfold PLACEHOLDERS in H;
  repeat (apply elem_of_cons in H as [-> | H]);
  [.. | by apply elem_of_nil in H].

(** Every placeholder is a dollar sign followed by dollar-free text. *)
Lemma placeholder_shape (p : string) :
  p ∈ PLACEHOLDERS → ∃ p', p = String "$" p' ∧ char_in "$" p' = false.
Proof. intros H. each_placeholder H; by eexists. Qed.

(** No placeholder starts another one. *)
Lemma placeholder_starts (p q : string) :
  p ∈ PLACEHOLDERS → q ∈ PLACEHOLDERS → starts_with p q = true → p = q.
Proof. intros Hp Hq. each_placeholder Hp; each_placeholder Hq; done. Qed.

(** One replacement fills the holes of that name and nothing else. *)
Lemma replace_scan_fill (p v : string) (ts : list piece) :
  p ∈ PLACEHOLDERS → Forall piece_ok ts →
  replace_scan p v 0 (pieces_text ts) = pieces_text (fill p v ts).
Proof.
  intros Hp Hts. destruct (placeholder_shape p Hp) as (p' & -> & Hp').
  induction Hts as [|t ts Ht Hts IH]; [done |].
  unfold fill in *. rewrite bind_cons, pieces_text_app.
  destruct t as [c | q]; simpl in Ht.
  - cbn [pieces_text piece_text fill_piece].
    rewrite (replace_scan_plain "$" p' v (String c "")), IH; [done |].
    simpl. apply orb_false_intro; [| done].
    apply ascii_eqb_false. congruence.
  - cbn [pieces_text piece_text fill_piece].
    destruct (String.eqb q (String "$" p')) eqn:E.
    + apply String.eqb_eq in E as ->.
      by rewrite replace_scan_hit, IH, pieces_text_chars.
    + apply String.eqb_neq in E.
      destruct (placeholder_shape q Ht) as (q' & -> & Hq').
      change (String "$" q' +:+ pieces_text ts)
        with (String "$" (q' +:+ pieces_text ts)).
      cbn [replace_scan].
      destruct (starts_with _ _) eqn:S.
      * change (String "$" (q' +:+ pieces_text ts))
          with (String "$" q' +:+ pieces_text ts) in S.
        apply starts_with_app_cases in S as [S | S];
          apply placeholder_starts in S; congruence.
      * rewrite replace_scan_plain, IH by done. simpl.
        by rewrite append_nil_r.
Qed.

Lemma fill_ok (p v : string) (ts : list piece) :
  char_in "$" v = false → Forall piece_ok ts → Forall piece_ok (fill p v ts).
Proof.
  intros Hv Hts. unfold fill.
  induction Hts as [|t ts Ht Hts IH]; [constructor |].
  rewrite bind_cons. apply Forall_app. split; [| done].
  destruct t as [c | q]; simpl.
  - by constructor.
  - destruct (String.eqb q p); [by apply chars_ok | by constructor].
Qed.

Lemma render_chars (table : gmap string string) (v : string) :
  render table (chars v) = chars v.
Proof.
  unfold render. induction v as [|c v IH]; [done |].
  simpl chars. rewrite bind_cons, IH. done.
Qed.

Lemma render_empty (ts : list piece) : render ∅ ts = ts.
Proof.
  unfold render. induction ts as [|t ts IH]; [done |].
  rewrite bind_cons, IH. destruct t; simpl; [done |].
  by rewrite lookup_empty.
Qed.

Lemma render_fill (table : gmap string string) (p v : string) (ts : list piece) :
  render table (fill p v ts) = render (<[p := v]> table) ts.
Proof.
  unfold render, fill. induction ts as [|t ts IH]; [done |].
  rewrite !bind_cons, bind_app, IH. f_equal.
  destruct t as [c | q]; simpl; [done |].
  destruct (String.eqb q p) eqn:E.
  - apply String.eqb_eq in E as ->. rewrite lookup_insert_eq.
    apply render_chars.
  - apply String.eqb_neq in E. rewrite lookup_insert_ne by done.
    simpl. by rewrite app_nil_r.
Qed.

(** A sequence of replacements, in whatever order, fills every hole from the
    table of the replacements. *)
Lemma apply_replacements_render (rs : list (string * string)) (ts : list piece) :
  Forall (λ pv, pv.1 ∈ PLACEHOLDERS ∧ char_in "$" pv.2 = false) rs →
  Forall piece_ok ts →
  apply_replacements rs (pieces_text ts) = pieces_text (render (list_to_map rs) ts).
Proof.
  intros Hrs. revert ts.
  induction Hrs as [|[p v] rs [Hp Hv] Hrs IH]; intros ts Hts.
  - simpl. by rewrite render_empty.
  - simpl in Hp, Hv. cbn [apply_replacements fold_left fst snd].
    destruct (placeholder_shape p Hp) as (p' & Ep & _).
    assert (str_replace (pieces_text ts) p v = pieces_text (fill p v ts)) as ->.
    { rewrite <- replace_scan_fill by done. by rewrite Ep. }
    fold (apply_replacements rs (pieces_text (fill p v ts))).
    rewrite IH by (by apply fill_ok).
    by rewrite render_fill.
Qed.

Lemma string_drop_app (x r : string) : string_drop (String.length x) (x +:+ r) = r.
Proof. induction x as [|c x IH]; simpl; [by destruct r | done]. Qed.

(** What [scan_pieces] returns is a well-formed reading of the string. *)
Lemma scan_pieces_sound (s : string) (skip : nat) (ts : list piece) :
  scan_pieces skip s = Some ts →
  Forall piece_ok ts ∧ pieces_text ts = string_drop skip s.
Proof.
  revert skip ts. induction s as [|c s IH]; intros skip ts H.
  - injection H as <-. split; [constructor | by destruct skip].
  - cbn [scan_pieces] in H. destruct skip as [|k]; [| by apply IH].
    destruct (Ascii.eqb c "$") eqn:Ec.
    + apply ascii_eqb_true in Ec as ->.
      destruct (List.find _ PLACEHOLDERS) as [p|] eqn:Hfind; [| done].
      apply List.find_some in Hfind as [Hin Hstarts].
      apply list_elem_of_In in Hin.
      destruct (scan_pieces _ s) as [ts'|] eqn:Hscan; [| done].
      injection H as <-. apply IH in Hscan as [Hok Htext].
      split; [by constructor |].
      destruct (placeholder_shape p Hin) as (p' & -> & _).
      apply starts_with_inv in Hstarts as [r Hr]. simpl in Hr.
      injection Hr as ->. simpl in Htext |- *.
      by rewrite Htext, Nat.sub_0_r, string_drop_app.
    + apply ascii_eqb_false in Ec.
      destruct (scan_pieces 0 s) as [ts'|] eqn:Hscan; [| done].
      injection H as <-. apply IH in Hscan as [Hok Htext].
      split; [by constructor |]. simpl. by rewrite Htext.
Qed.

Lemma dollars_start_placeholders_pieces (content : string) :
  dollars_start_placeholders content = true →
  ∃ ts, Forall piece_ok ts ∧ pieces_text ts = content.
Proof.
  unfold dollars_start_placeholders.
  destruct (scan_pieces 0 content) as [ts|] eqn:H; [| done].
  intros _. exists ts. by apply scan_pieces_sound in H.
Qed.

(** ** [replace_placeholders] *)

Lemma getitem_inv (config : gmap string string) (key v : string) :
  getitem config key = inr v → config !! key = Some v.
Proof. unfold getitem. destruct (config !! key); naive_solver. Qed.

Lemma getitem_Some (config : gmap string string) (key v : string) :
  config !! key = Some v → getitem config key = inr v.
Proof. unfold getitem. by intros ->. Qed.

Lemma replacements_Some (config : gmap string string) (id nm ns au ve : string) :
  config !! "mod_id" = Some id → config !! "mod_name" = Some nm →
  config !! "namespace" = Some ns → config !! "author" = Some au →
  config !! "version" = Some ve →
  replacements config =
    inr [ ("${ModId}", id); ("${ModName}", nm); ("${ModNamespace}", ns);
          ("${Author}", au); ("${Version}", ve);
          ("${ModDescription}", dict_get config "description" "A Bannerlord mod") ].
Proof.
  intros H1 H2 H3 H4 H5. unfold replacements.
  by rewrite (getitem_Some _ _ _ H1), (getitem_Some _ _ _ H2),
    (getitem_Some _ _ _ H3), (getitem_Some _ _ _ H4), (getitem_Some _ _ _ H5).
Qed.

Lemma replacements_inv (config : gmap string string) (rs : list (string * string)) :
  replacements config = inr rs →
  ∃ id nm ns au ve,
    config !! "mod_id" = Some id ∧ config !! "mod_name" = Some nm ∧
    config !! "namespace" = Some ns ∧ config !! "author" = Some au ∧
    config !! "version" = Some ve ∧
    rs = [ ("${ModId}", id); ("${ModName}", nm); ("${ModNamespace}", ns);
           ("${Author}", au); ("${Version}", ve);
           ("${ModDescription}", dict_get config "description" "A Bannerlord mod") ].
Proof.
  unfold replacements, getitem. intros H.
  destruct (config !! "mod_id") as [id|]; [| done].
  destruct (config !! "mod_name") as [nm|]; [| done].
  destruct (config !! "namespace") as [ns|]; [| done].
  destruct (config !! "author") as [au|]; [| done].
  destruct (config !! "version") as [ve|]; [| done].
  simpl in H. exists id, nm, ns, au, ve. naive_solver.
Qed.

Lemma replacements_keys (config : gmap string string) (rs : list (string * string)) :
  replacements config = inr rs → rs.*1 = PLACEHOLDERS.
Proof.
  intros H. apply replacements_inv in H as (?&?&?&?&?&_&_&_&_&_&->). done.
Qed.

Lemma placeholders_NoDup : NoDup PLACEHOLDERS.
Proof. compute_done. Qed.

(** C1, as stated, fails: the table has five entries, not six, and six
    placeholders are replaced, not five. *)
Lemma table_counts_refuted :
  length TEMPLATES ≠ 6 ∧
  replacements sample_config = inr sample_replacements ∧
  length sample_replacements ≠ 5.
Proof. split; [done |]. split; [by vm_compute | done]. Qed.

(** C1, amended: the template table maps exactly five distinct output names
    to template files, and the substitution pass replaces exactly the six
    placeholders [${ModId}], [${ModName}], [${ModNamespace}], [${Author}],
    [${Version}] and [${ModDescription}]. *)
Theorem table_counts (config : gmap string string) (rs : list (string * string)) :
  replacements config = inr rs →
  length TEMPLATES = 5 ∧ NoDup TEMPLATES.*1 ∧
  rs.*1 = [ "${ModId}"; "${ModName}"; "${ModNamespace}"; "${Author}";
            "${Version}"; "${ModDescription}" ] ∧
  length rs = 6.
Proof.
  intros H. split; [done |]. split; [compute_done |].
  apply replacements_inv in H as (?&?&?&?&?&_&_&_&_&_&->). done.
Qed.

Lemma table_counts_witness :
  length TEMPLATES = 5 ∧ NoDup TEMPLATES.*1 ∧
  sample_replacements.*1 = PLACEHOLDERS ∧ length sample_replacements = 6.
Proof.
  apply (table_counts sample_config sample_replacements).
  vm_compute. reflexivity.
Defined.

(** C2, as stated, fails: when the mod id is itself a placeholder, the
    table order turns [${ModId}] into the mod name, the reverse order leaves
    [${ModName}] in the output. *)
Lemma replace_order_dependent :
  replacements nested_config = inr nested_replacements ∧
  reverse nested_replacements ≡ₚ nested_replacements ∧
  apply_replacements nested_replacements "${ModId}" = "X" ∧
  apply_replacements (reverse nested_replacements) "${ModId}" = "${ModName}".
Proof.
  split; [by vm_compute |]. split; [apply reverse_Permutation |].
  split; by vm_compute.
Qed.

(** Values without dollar signs are not enough: a value can complete a
    placeholder out of fragments that the content has around another
    placeholder. *)
Lemma replace_order_dependent_splice :
  replacements splice_config = inr splice_replacements ∧
  Forall (λ v, char_in "$" v = false) splice_replacements.*2 ∧
  apply_replacements splice_replacements "${Mod${Author}me}" = "${ModName}" ∧
  apply_replacements (reverse splice_replacements) "${Mod${Author}me}" = "X".
Proof.
  split; [by vm_compute |]. split; [by repeat constructor |]. split; by vm_compute.
Qed.

(** In a well-formed template with dollar-free values, the result of
    [replace_placeholders] is the template with every placeholder filled
    from the table. *)
Lemma replace_placeholders_render (config : gmap string string)
    (rs : list (string * string)) (ts : list piece) :
  replacements config = inr rs →
  Forall (λ v, char_in "$" v = false) rs.*2 →
  Forall piece_ok ts →
  Forall (λ pv, pv.1 ∈ PLACEHOLDERS ∧ char_in "$" pv.2 = false) rs ∧
  replace_placeholders (pieces_text ts) config
  = inr (pieces_text (render (list_to_map rs) ts)).
Proof.
  intros Hrs Hv Hts.
  assert (Forall (λ pv, pv.1 ∈ PLACEHOLDERS ∧ char_in "$" pv.2 = false) rs) as Hok.
  { apply Forall_forall. intros [p v] Hin. split.
    - rewrite <- (replacements_keys _ _ Hrs). by apply (list_elem_of_fmap_2 fst) in Hin.
    - apply (Forall_forall (λ v, char_in "$" v = false) rs.*2); [done |].
      by apply (list_elem_of_fmap_2 snd) in Hin. }
  split; [done |]. unfold replace_placeholders. rewrite Hrs. simpl.
  by rewrite apply_replacements_render.
Qed.

(** C2, amended: when no configured value contains a dollar sign and every
    dollar sign of the content starts one of the six placeholders, applying
    the six replacements in any order yields the same string as
    [replace_placeholders] does. *)
Theorem replace_order_independent (config : gmap string string)
    (rs l : list (string * string)) (content : string) :
  replacements config = inr rs →
  Forall (λ v, char_in "$" v = false) rs.*2 →
  dollars_start_placeholders content = true →
  l ≡ₚ rs →
  apply_replacements l content = apply_replacements rs content ∧
  replace_placeholders content config = inr (apply_replacements l content).
Proof.
  intros Hrs Hv Hcontent Hl.
  destruct (dollars_start_placeholders_pieces content Hcontent) as (ts & Hts & <-).
  destruct (replace_placeholders_render config rs ts Hrs Hv Hts) as [Hok Hrender].
  assert (NoDup l.*1) as Hnd.
  { rewrite Hl, (replacements_keys _ _ Hrs). apply placeholders_NoDup. }
  rewrite Hrender.
  rewrite !apply_replacements_render; [| done.. | by rewrite Hl | done].
  by rewrite (list_to_map_proper l rs Hnd Hl).
Qed.

Lemma replace_order_independent_witness :
  apply_replacements (reverse sample_replacements) "ns ${ModNamespace};${ModId}"
  = apply_replacements sample_replacements "ns ${ModNamespace};${ModId}".
Proof.
  refine (proj1 (replace_order_independent sample_config sample_replacements
                   (reverse sample_replacements) "ns ${ModNamespace};${ModId}"
                   _ _ _ _)).
  - vm_compute. reflexivity.
  - repeat constructor.
  - vm_compute. reflexivity.
  - apply reverse_Permutation.
Defined.

(** C3: [replace_placeholders] replaces, by literal substring replacement and
    in this order, [${ModId}] with the mod id, [${ModName}] with the mod
    name, [${ModNamespace}] with the namespace, [${Author}] with the author,
    [${Version}] with the version and [${ModDescription}] with the
    configured description, or with ["A Bannerlord mod"] when the
    configuration has none. *)
Theorem replace_placeholders_spec (content : string) (config : gmap string string)
    (id nm ns au ve : string) :
  config !! "mod_id" = Some id → config !! "mod_name" = Some nm →
  config !! "namespace" = Some ns → config !! "author" = Some au →
  config !! "version" = Some ve →
  replace_placeholders content config =
    inr (str_replace
          (str_replace
            (str_replace
              (str_replace
                (str_replace
                  (str_replace content "${ModId}" id)
                  "${ModName}" nm)
                "${ModNamespace}" ns)
              "${Author}" au)
            "${Version}" ve)
          "${ModDescription}"
          (default "A Bannerlord mod" (config !! "description"))).
Proof.
  intros H1 H2 H3 H4 H5. unfold replace_placeholders.
  rewrite (replacements_Some config id nm ns au ve) by done.
  unfold dict_get. by destruct (config !! "description").
Qed.

Lemma replace_placeholders_spec_witness :
  replace_placeholders "<Name value='${ModName}' by='${Author}'/>" sample_config
  = inr "<Name value='My Mod' by='me'/>".
Proof.
  rewrite (replace_placeholders_spec _ sample_config "MyMod" "My Mod" "MyNs" "me" "1.0.0").
  - vm_compute. reflexivity.
  - vm_compute. reflexivity.
  - vm_compute. reflexivity.
  - vm_compute. reflexivity.
  - vm_compute. reflexivity.
  - vm_compute. reflexivity.
Defined.

(** ** The monad *)

Lemma bind_ok {A B} (m : M A) (k : A → M B) (w w1 : world) (a : A) :
  m w = (inr a, w1) → (m ≫= k) w = k a w1.
Proof. intros H. unfold mbind, M_bind, bind. by rewrite H. Qed.

Lemma bind_raise {A B} (m : M A) (k : A → M B) (w w1 : world) (e : exn) :
  m w = (inl e, w1) → (m ≫= k) w = (inl e, w1).
Proof. intros H. unfold mbind, M_bind, bind. by rewrite H. Qed.

Lemma bind_inv {A B} (m : M A) (k : A → M B) (w w' : world) (b : B) :
  (m ≫= k) w = (inr b, w') →
  ∃ a w1, m w = (inr a, w1) ∧ k a w1 = (inr b, w').
Proof.
  unfold mbind, M_bind, bind. destruct (m w) as [[e | a] w1]; [done |].
  intros H. by exists a, w1.
Qed.

Lemma lift_inv {A} (r : result A) (w w' : world) (a : A) :
  lift r w = (inr a, w') → r = inr a ∧ w' = w.
Proof. unfold lift. naive_solver. Qed.

Lemma print_inv (line : string) (w w' : world) (r : result unit) :
  print line w = (r, w') →
  r = inr tt ∧ files w' = files w ∧ stdout w' = stdout w ++ [line].
Proof. unfold print. naive_solver. Qed.

(** ** Paths *)

Lemma is_root_app (p : path) (a b : string) : is_root (p ++ [a; b]) = false.
Proof. by destruct p as [|? [|? [|? ?]]]. Qed.

Lemma path_parent_snoc (p : path) (a : string) :
  is_root (p ++ [a]) = false → path_parent (p ++ [a]) = p.
Proof. unfold path_parent. intros ->. apply removelast_last. Qed.

Lemma is_root_length (p : path) : is_root p = true → length p ≤ 1.
Proof. destruct p as [|? [|? ?]]; simpl; [lia | lia | done]. Qed.

(** ** The file system *)

Lemma stat_None (fs : gmap path node) (p : path) :
  stat fs p = None ↔ is_root p = false ∧ fs !! p = None.
Proof.
  unfold stat. destruct (is_root p); split;
    [done | by intros [? ?] | by intros -> | by intros [_ ?]].
Qed.

Lemma stat_not_root (fs : gmap path node) (p : path) :
  stat fs p ≠ Some Dir → is_root p = false.
Proof. unfold stat. by destruct (is_root p). Qed.

Lemma stat_insert_ne (fs : gmap path node) (p q : path) (n : node) :
  p ≠ q → stat (<[p := n]> fs) q = stat fs q.
Proof. intros H. unfold stat. by rewrite lookup_insert_ne. Qed.

Lemma stat_insert_eq (fs : gmap path node) (p : path) (n : node) :
  is_root p = false → stat (<[p := n]> fs) p = Some n.
Proof. intros H. unfold stat. by rewrite H, lookup_insert_eq. Qed.

(** Writing a file where no directory is neither makes nor removes a
    directory. *)
Lemma stat_insert_File_Dir (fs : gmap path node) (p q : path) (content : string) :
  stat fs p ≠ Some Dir →
  stat (<[p := File content]> fs) q = Some Dir ↔ stat fs q = Some Dir.
Proof.
  intros Hp. destruct (decide (p = q)) as [<- | Hne].
  - rewrite stat_insert_eq by by eapply stat_not_root. naive_solver.
  - by rewrite stat_insert_ne.
Qed.

Lemma adds_dirs_refl (allowed : path → Prop) (fs : gmap path node) :
  adds_dirs allowed fs fs.
Proof. intros q. by left. Qed.

Lemma adds_dirs_trans (a1 a2 a3 : path → Prop) (fs1 fs2 fs3 : gmap path node) :
  (∀ q, a1 q → a3 q) → (∀ q, a2 q → a3 q) →
  adds_dirs a1 fs1 fs2 → adds_dirs a2 fs2 fs3 → adds_dirs a3 fs1 fs3.
Proof.
  intros H1 H2 H12 H23 q.
  destruct (H12 q) as [E12 | (N1 & D2 & A1)], (H23 q) as [E23 | (N2 & D3 & A2)].
  - left. congruence.
  - right. rewrite <- E12. auto.
  - right. rewrite E23. auto.
  - congruence.
Qed.

Lemma adds_dirs_stat (allowed : path → Prop) (fs fs' : gmap path node) (q : path) :
  adds_dirs allowed fs fs' →
  stat fs' q = stat fs q ∨ (stat fs q = None ∧ stat fs' q = Some Dir ∧ allowed q).
Proof.
  intros H. unfold stat. destruct (is_root q); [by left |]. apply H.
Qed.

Lemma adds_dirs_stat_Some (allowed : path → Prop) (fs fs' : gmap path node)
    (q : path) (n : node) :
  adds_dirs allowed fs fs' → stat fs q = Some n → stat fs' q = Some n.
Proof.
  intros H Hq. destruct (adds_dirs_stat _ _ _ q H) as [-> | (? & _)]; congruence.
Qed.

Lemma adds_dirs_stat_away (allowed : path → Prop) (fs fs' : gmap path node) (q : path) :
  adds_dirs allowed fs fs' → ¬ allowed q → stat fs' q = stat fs q.
Proof.
  intros H Hq. by destruct (adds_dirs_stat _ _ _ q H) as [-> | (_ & _ & ?)].
Qed.

(** *** [mkdir] *)

Lemma mkdir_oserror_inv (p : path) (exist_ok : bool) (e : exn) (w w' : world) :
  mkdir_oserror p exist_ok e w = (inr tt, w') →
  w' = w ∧ stat (files w) p = Some Dir.
Proof.
  unfold mkdir_oserror, mbind, M_bind, bind, is_dir, raise, mret, M_ret, ret.
  destruct (stat (files w) p) as [[|c]|]; destruct exist_ok; naive_solver.
Qed.

Lemma mkdir_oserror_Dir (p : path) (e : exn) (w : world) :
  stat (files w) p = Some Dir → mkdir_oserror p true e w = (inr tt, w).
Proof.
  intros H. unfold mkdir_oserror, mbind, M_bind, bind, is_dir. by rewrite H.
Qed.

Lemma os_mkdir_inv (p : path) (w w' : world) :
  os_mkdir p w = (inr tt, w') →
  stat (files w) p = None ∧ stat (files w) (path_parent p) = Some Dir ∧
  w' = World (<[p := Dir]> (files w)) (stdout w).
Proof.
  unfold os_mkdir. destruct (stat (files w) p); [done |].
  destruct (stat (files w) (path_parent p)) as [[|c]|]; naive_solver.
Qed.

Lemma os_mkdir_raise_inv (p : path) (w w' : world) (e : exn) :
  os_mkdir p w = (inl e, w') → w' = w.
Proof.
  unfold os_mkdir. destruct (stat (files w) p); [naive_solver |].
  destruct (stat (files w) (path_parent p)) as [[|c]|]; naive_solver.
Qed.

Lemma os_mkdir_adds (p : path) (w w' : world) :
  os_mkdir p w = (inr tt, w') →
  stdout w' = stdout w ∧ stat (files w') p = Some Dir ∧
  adds_dirs (λ q, q = p) (files w) (files w').
Proof.
  intros H. apply os_mkdir_inv in H as (Hp & _ & ->). simpl.
  apply stat_None in Hp as [Hr Hp]. split; [done |]. split.
  - by apply stat_insert_eq.
  - intros q. destruct (decide (p = q)) as [<- | Hne].
    + right. by rewrite lookup_insert_eq.
    + left. by rewrite lookup_insert_ne.
Qed.

(** A successful [mkdir] leaves a directory at [p] and changes nothing
    else. *)
Lemma mkdir_inv (p : path) (exist_ok : bool) (w w' : world) :
  mkdir p exist_ok w = (inr tt, w') →
  stdout w' = stdout w ∧ stat (files w') p = Some Dir ∧
  adds_dirs (λ q, q = p) (files w) (files w').
Proof.
  unfold mkdir, catch. destruct (os_mkdir p w) as [[e | []] w1] eqn:E.
  - apply os_mkdir_raise_inv in E as ->. intros H.
    assert (mkdir_oserror p exist_ok e w = (inr tt, w')) as H'
      by (by destruct e).
    apply mkdir_oserror_inv in H' as [-> ?]. eauto using adds_dirs_refl.
  - intros [= <-]. by apply os_mkdir_adds.
Qed.

(** Where a directory already is, [mkdir(exist_ok=True)] does nothing. *)
Lemma mkdir_Dir (p : path) (w : world) :
  stat (files w) p = Some Dir → mkdir p true w = (inr tt, w).
Proof.
  intros H. unfold mkdir, catch, os_mkdir. rewrite H.
  by apply mkdir_oserror_Dir.
Qed.

(** In an existing directory [mkdir(exist_ok=True)] succeeds unless a
    regular file is in the way. *)
Lemma mkdir_ok (p : path) (w : world) :
  stat (files w) (path_parent p) = Some Dir →
  (∀ content, stat (files w) p ≠ Some (File content)) →
  ∃ w', mkdir p true w = (inr tt, w').
Proof.
  intros Hparent Hp. destruct (stat (files w) p) as [[|c]|] eqn:E.
  - exists w. by apply mkdir_Dir.
  - by destruct (Hp c).
  - eexists. unfold mkdir, catch, os_mkdir. by rewrite E, Hparent.
Qed.

Lemma mkdir_parents_rev_inv (rparts : list string) (exist_ok : bool) (w w' : world) :
  mkdir_parents_rev rparts exist_ok w = (inr tt, w') →
  stdout w' = stdout w ∧ stat (files w') (rev rparts) = Some Dir ∧
  adds_dirs (λ q, q `prefix_of` rev rparts) (files w) (files w').
Proof.
  revert exist_ok w w'. induction rparts as [|a rparent IH]; intros exist_ok w w'.
  - simpl. unfold catch.
    destruct (os_mkdir [] w) as [[e | []] w1] eqn:E; [| by apply os_mkdir_inv in E as [? _]].
    apply os_mkdir_raise_inv in E as ->. intros H.
    assert (mkdir_oserror [] exist_ok e w = (inr tt, w')) as H'
      by (by destruct e).
    apply mkdir_oserror_inv in H' as [-> ?]. eauto using adds_dirs_refl.
  - cbn [mkdir_parents_rev]. unfold catch.
    destruct (os_mkdir (rev (a :: rparent)) w) as [[e | []] w1] eqn:E.
    + apply os_mkdir_raise_inv in E as ->. intros H.
      destruct e as [k | q | q | q | q | n];
        try (apply mkdir_oserror_inv in H as [-> ?]; by eauto using adds_dirs_refl).
      destruct (is_root (rev (a :: rparent))); [done |].
      apply bind_inv in H as ([] & w1 & H1 & H2).
      apply IH in H1 as (O1 & _ & A1). apply mkdir_inv in H2 as (O2 & D2 & A2).
      split; [congruence |]. split; [done |].
      eapply adds_dirs_trans; [| | exact A1 | exact A2]; simpl.
      * intros q' Hq'. etrans; [exact Hq' |]. by apply prefix_app_r.
      * by intros q' ->.
    + intros [= <-]. apply os_mkdir_adds in E as (? & ? & A).
      split; [done |]. split; [done |].
      intros q. destruct (A q) as [? | (? & ? & ->)]; [by left | by right].
Qed.

(** A successful [mkdir(parents=True)] leaves a directory at [p]; what it
    adds are directories on the way to [p]. *)
Lemma mkdir_parents_inv (p : path) (exist_ok : bool) (w w' : world) :
  mkdir_parents p exist_ok w = (inr tt, w') →
  stdout w' = stdout w ∧ stat (files w') p = Some Dir ∧
  adds_dirs (λ q, q `prefix_of` p) (files w) (files w').
Proof.
  intros H. apply mkdir_parents_rev_inv in H. by rewrite rev_involutive in H.
Qed.

Lemma mkdir_parents_Dir (p : path) (w : world) :
  stat (files w) p = Some Dir → mkdir_parents p true w = (inr tt, w).
Proof.
  intros H. unfold mkdir_parents.
  assert (stat (files w) (rev (rev p)) = Some Dir) as H' by by rewrite rev_involutive.
  destruct (rev p) as [|a rparent]; cbn [mkdir_parents_rev]; unfold catch, os_mkdir;
    rewrite H'; by apply mkdir_oserror_Dir.
Qed.

(** [mkdir(parents=True, exist_ok=True)] succeeds unless a regular file is
    on the way. *)
Lemma mkdir_parents_rev_ok (rparts : list string) (w : world) :
  no_file_on_the_way (files w) (rev rparts) →
  ∃ w', mkdir_parents_rev rparts true w = (inr tt, w').
Proof.
  revert w. induction rparts as [|a rparent IH]; intros w Hfree.
  - exists w. by apply (mkdir_parents_Dir []).
  - set (p := rev (a :: rparent)) in *.
    destruct (stat (files w) p) as [[|c]|] eqn:E.
    + exists w. apply (mkdir_parents_Dir p) in E.
      unfold mkdir_parents, p in E. by rewrite rev_involutive in E.
    + by destruct (Hfree p c).
    + pose proof E as [Hroot _]%stat_None.
      assert (path_parent p = rev rparent) as Hparent.
      { unfold p in *. simpl in *. by apply path_parent_snoc. }
      cbn [mkdir_parents_rev]. fold p. unfold catch, os_mkdir.
      rewrite E, Hparent.
      destruct (stat (files w) (rev rparent)) as [[|c]|] eqn:E'.
      * by eexists.
      * destruct (Hfree (rev rparent) c); [| done].
        unfold p. simpl. by apply prefix_app_r.
      * rewrite Hroot. destruct (IH w) as [w1 H1].
        { intros q c Hq. apply Hfree. etrans; [exact Hq |].
          unfold p. simpl. by apply prefix_app_r. }
        rewrite (bind_ok _ _ _ _ _ H1).
        apply mkdir_parents_rev_inv in H1 as (_ & D1 & A1).
        apply mkdir_ok.
        -- by rewrite Hparent.
        -- intros c Hc.
           destruct (adds_dirs_stat _ _ _ p A1) as [E1 | (_ & E1 & _)]; congruence.
Qed.

Lemma mkdir_parents_ok (p : path) (w : world) :
  no_file_on_the_way (files w) p →
  ∃ w', mkdir_parents p true w = (inr tt, w').
Proof.
  intros H. apply mkdir_parents_rev_ok. by rewrite rev_involutive.
Qed.

Lemma mkdir_oserror_world (p : path) (exist_ok : bool) (e : exn)
    (w w1 : world) (r : result unit) :
  mkdir_oserror p exist_ok e w = (r, w1) → w1 = w.
Proof.
  unfold mkdir_oserror, mbind, M_bind, bind, is_dir, raise, mret, M_ret, ret.
  destruct (negb exist_ok || negb _); naive_solver.
Qed.

(** A [mkdir] that raises has changed nothing. *)
Lemma mkdir_raise (p : path) (exist_ok : bool) (w w1 : world) (e : exn) :
  mkdir p exist_ok w = (inl e, w1) → w1 = w.
Proof.
  unfold mkdir, catch. destruct (os_mkdir p w) as [[e0 | []] w0] eqn:E; [| done].
  apply os_mkdir_raise_inv in E as ->.
  destruct e0; try (by apply mkdir_oserror_world).
  unfold raise. naive_solver.
Qed.

(** A [mkdir(parents=True, exist_ok=True)] that raises has changed nothing:
    it can only raise before the first directory is made. *)
Lemma mkdir_parents_rev_raise (rparts : list string) (w w1 : world) (e : exn) :
  mkdir_parents_rev rparts true w = (inl e, w1) → w1 = w.
Proof.
  revert w w1 e. induction rparts as [|a rparent IH]; intros w w1 e.
  - simpl. unfold catch.
    destruct (os_mkdir [] w) as [[e0 | []] w0] eqn:E; [| done].
    apply os_mkdir_raise_inv in E as ->.
    destruct e0; try (by apply mkdir_oserror_world).
    unfold raise. naive_solver.
  - cbn [mkdir_parents_rev]. unfold catch.
    set (p := rev (a :: rparent)).
    destruct (os_mkdir p w) as [[e0 | []] w0] eqn:E; [| done].
    pose proof E as ->%os_mkdir_raise_inv.
    destruct e0 as [k | q | q | q | q | n];
      try (by apply mkdir_oserror_world).
    destruct (is_root p) eqn:Hroot; [unfold raise; naive_solver |].
    destruct (mkdir_parents_rev rparent true w) as [[e1 | []] wa] eqn:H1.
    + rewrite (bind_raise _ _ _ _ _ H1). intros [= <- <-]. by eapply IH.
    + rewrite (bind_ok _ _ _ _ _ H1). intros H2. exfalso.
      apply mkdir_parents_rev_inv in H1 as (_ & D1 & A1).
      assert (stat (files w) p = None) as Hp.
      { unfold os_mkdir in E. destruct (stat (files w) p); [| done].
        by injection E. }
      destruct (mkdir_ok p wa) as [w2 H2'].
      * unfold p. simpl. by rewrite path_parent_snoc.
      * intros c Hc.
        destruct (adds_dirs_stat _ _ _ p A1) as [E1 | (_ & E1 & _)]; congruence.
      * congruence.
Qed.

Lemma mkdir_parents_raise (p : path) (w w1 : world) (e : exn) :
  mkdir_parents p true w = (inl e, w1) → w1 = w.
Proof. apply mkdir_parents_rev_raise. Qed.

(** *** [write_text] *)

Lemma write_text_inv (p : path) (content : string) (w w' : world) :
  write_text p content w = (inr tt, w') →
  stat (files w) p ≠ Some Dir ∧
  (stat (files w) p = None → stat (files w) (path_parent p) = Some Dir) ∧
  w' = World (<[p := File content]> (files w)) (stdout w).
Proof.
  unfold write_text. destruct (stat (files w) p) as [[|c]|]; [done | naive_solver |].
  destruct (stat (files w) (path_parent p)) as [[|c]|]; naive_solver.
Qed.

Lemma write_text_ok (p : path) (content : string) (w : world) :
  stat (files w) p ≠ Some Dir →
  (stat (files w) p = None → stat (files w) (path_parent p) = Some Dir) →
  write_text p content w
  = (inr tt, World (<[p := File content]> (files w)) (stdout w)).
Proof.
  intros H1 H2. unfold write_text.
  destruct (stat (files w) p) as [[|c]|]; [done.. |]. by rewrite H2.
Qed.

Lemma path_exists_Some (p : path) (n : node) (w : world) :
  stat (files w) p = Some n → path_exists p w = (inr true, w).
Proof. intros H. unfold path_exists. by rewrite H. Qed.

Lemma path_exists_None (p : path) (w : world) :
  stat (files w) p = None → path_exists p w = (inr false, w).
Proof. intros H. unfold path_exists. by rewrite H. Qed.

Lemma read_text_File (p : path) (content : string) (w : world) :
  stat (files w) p = Some (File content) → read_text p w = (inr content, w).
Proof. intros H. unfold read_text. by rewrite H. Qed.

Lemma read_text_Dir (p : path) (w : world) :
  stat (files w) p = Some Dir → read_text p w = (inl (IsADirectoryError p), w).
Proof. intros H. unfold read_text. by rewrite H. Qed.

(** A [write_text] that raises has changed nothing, and raises again
    wherever the files are the same. *)
Lemma write_text_raise (p : path) (content : string) (w w1 : world) (e : exn) :
  write_text p content w = (inl e, w1) →
  w1 = w ∧ ∀ w2, files w2 = files w → write_text p content w2 = (inl e, w2).
Proof.
  unfold write_text. intros H. split.
  - destruct (stat (files w) p) as [[|c]|]; [naive_solver | done |].
    destruct (stat (files w) (path_parent p)) as [[|c]|]; naive_solver.
  - intros w2 ->. destruct (stat (files w) p) as [[|c]|]; [naive_solver | done |].
    destruct (stat (files w) (path_parent p)) as [[|c]|]; naive_solver.
Qed.

(** *** The file system stays closed under parents *)

Create HintDb closed discriminated.

Lemma path_parent_ne (p : path) : is_root p = false → path_parent p ≠ p.
Proof.
  intros H E. unfold path_parent in E. rewrite H in E.
  apply (f_equal length) in E. destruct p as [|a p] using rev_ind; [done |].
  rewrite removelast_last, length_app in E. simpl in E. lia.
Qed.

(** A new entry in an existing directory, where nothing or a file of the
    same kind was. *)
Lemma fs_closed_insert (fs : gmap path node) (p : path) (n : node) :
  fs_closed fs →
  stat fs (path_parent p) = Some Dir →
  (stat fs p = Some Dir → n = Dir) →
  is_root p = false →
  fs_closed (<[p := n]> fs).
Proof.
  intros Hfs Hparent Hkind Hroot q m Hq.
  assert (∀ q', stat fs q' = Some Dir → stat (<[p := n]> fs) q' = Some Dir) as Hkeep.
  { intros q' Hq'. destruct (decide (p = q')) as [<- | Hne].
    - rewrite stat_insert_eq by done. f_equal. by apply Hkind.
    - by rewrite stat_insert_ne. }
  destruct (decide (p = q)) as [<- | Hne]; [by apply Hkeep |].
  rewrite lookup_insert_ne in Hq by done. by apply Hkeep, (Hfs q m).
Qed.

Lemma keeps_closed_ret {A} (a : A) : keeps_closed (mret a).
Proof. intros w r w' Hw [= <- <-]. done. Qed.

Lemma keeps_closed_raise {A} (e : exn) : keeps_closed (raise (A:=A) e).
Proof. intros w r w' Hw [= <- <-]. done. Qed.

Lemma keeps_closed_lift {A} (x : result A) : keeps_closed (lift x).
Proof. intros w r w' Hw [= <- <-]. done. Qed.

Lemma keeps_closed_bind {A B} (m : M A) (k : A → M B) :
  keeps_closed m → (∀ a, keeps_closed (k a)) → keeps_closed (m ≫= k).
Proof.
  intros Hm Hk w r w' Hw. unfold mbind, M_bind, bind.
  destruct (m w) as [[e | a] w1] eqn:E.
  - intros [= <- <-]. by eapply Hm.
  - apply Hk. by eapply Hm.
Qed.

Lemma keeps_closed_catch {A} (m : M A) (h : exn → M A) :
  keeps_closed m → (∀ e, keeps_closed (h e)) → keeps_closed (catch m h).
Proof.
  intros Hm Hh w r w' Hw. unfold catch.
  destruct (m w) as [[e | a] w1] eqn:E.
  - apply Hh. by eapply Hm.
  - intros [= <- <-]. by eapply Hm.
Qed.

Lemma keeps_closed_print (line : string) : keeps_closed (print line).
Proof. intros w r w' Hw [= <- <-]. done. Qed.

Lemma keeps_closed_path_exists (p : path) : keeps_closed (path_exists p).
Proof. intros w r w' Hw [= <- <-]. done. Qed.

Lemma keeps_closed_is_dir (p : path) : keeps_closed (is_dir p).
Proof. intros w r w' Hw [= <- <-]. done. Qed.

Lemma keeps_closed_read_text (p : path) : keeps_closed (read_text p).
Proof.
  intros w r w' Hw. unfold read_text.
  destruct (stat (files w) p) as [[|c]|]; by intros [= <- <-].
Qed.

Lemma keeps_closed_write_text (p : path) (content : string) :
  keeps_closed (write_text p content).
Proof.
  intros w r w' Hw. unfold write_text.
  destruct (stat (files w) p) as [[|c]|] eqn:E; [by intros [= <- <-] | |].
  - intros [= <- <-]. simpl.
    assert (is_root p = false) as Hroot by (eapply stat_not_root; by rewrite E).
    apply fs_closed_insert; [done | | by rewrite E | done].
    apply (Hw p (File c)). unfold stat in E. by rewrite Hroot in E.
  - destruct (stat (files w) (path_parent p)) as [[|c]|] eqn:E';
      intros [= <- <-]; [| done..]. simpl.
    apply fs_closed_insert; [done | done | by rewrite E |].
    by apply stat_None in E as [? _].
Qed.

Lemma keeps_closed_os_mkdir (p : path) : keeps_closed (os_mkdir p).
Proof.
  intros w r w' Hw. unfold os_mkdir.
  destruct (stat (files w) p) as [n|] eqn:E; [by intros [= <- <-] |].
  destruct (stat (files w) (path_parent p)) as [[|c]|] eqn:E';
    intros [= <- <-]; [| done..]. simpl.
  apply fs_closed_insert; [done | done | done |].
  by apply stat_None in E as [? _].
Qed.

#[local] Hint Resolve keeps_closed_ret keeps_closed_raise keeps_closed_lift
  keeps_closed_print keeps_closed_path_exists keeps_closed_is_dir
  keeps_closed_read_text keeps_closed_write_text keeps_closed_os_mkdir : closed.

Ltac closed_bind := apply keeps_closed_bind; [| intros ?].
Ltac closed_catch := apply keeps_closed_catch; [| intros ?].
Ltac closed_done := solve [eauto with closed].

Lemma keeps_closed_mkdir_oserror (p : path) (exist_ok : bool) (e : exn) :
  keeps_closed (mkdir_oserror p exist_ok e).
Proof.
  unfold mkdir_oserror. closed_bind; [closed_done |].
  destruct (negb exist_ok || negb _); closed_done.
Qed.

#[local] Hint Resolve keeps_closed_mkdir_oserror : closed.

Lemma keeps_closed_mkdir (p : path) (exist_ok : bool) :
  keeps_closed (mkdir p exist_ok).
Proof. unfold mkdir. closed_catch; [closed_done |]. destruct e; closed_done. Qed.

#[local] Hint Resolve keeps_closed_mkdir : closed.

Lemma keeps_closed_mkdir_parents (p : path) (exist_ok : bool) :
  keeps_closed (mkdir_parents p exist_ok).
Proof.
  unfold mkdir_parents. generalize (rev p). clear p. intros rparts.
  revert exist_ok. induction rparts as [|a rparent IH]; intros exist_ok;
    cbn [mkdir_parents_rev]; (closed_catch; [closed_done |]);
    destruct e; try closed_done.
  destruct (is_root _); [closed_done |].
  closed_bind; [apply IH | closed_done].
Qed.

#[local] Hint Resolve keeps_closed_mkdir_parents : closed.

Lemma keeps_closed_for_each {A} (xs : list A) (body : A → M unit) :
  (∀ x, keeps_closed (body x)) → keeps_closed (for_each xs body).
Proof.
  intros Hbody. induction xs as [|x xs IH]; simpl; [closed_done |].
  closed_bind; [apply Hbody | apply IH].
Qed.

Lemma keeps_closed_process_template (mod_dir src_dir templates_dir : path)
    (config : gmap string string) (mod_id : string) (entry : string * string) :
  keeps_closed (process_template mod_dir src_dir templates_dir config mod_id entry).
Proof.
  unfold process_template. closed_bind; [closed_done |].
  destruct (negb a); [closed_done |].
  closed_bind; [closed_done |]. closed_bind; [closed_done |].
  closed_bind; closed_done.
Qed.

(** A run of [create_mod_structure] leaves the file system closed under
    parents, whatever its outcome. *)
Lemma keeps_closed_create_mod_structure (output_dir : path)
    (config : gmap string string) (templates_dir : path) :
  keeps_closed (create_mod_structure output_dir config templates_dir).
Proof.
  unfold create_mod_structure. closed_bind; [closed_done |].
  do 4 (closed_bind; [closed_done |]).
  closed_bind.
  { apply keeps_closed_for_each. intros x. apply keeps_closed_process_template. }
  closed_bind; [closed_done |]. closed_bind; [closed_done |].
  do 5 (closed_bind; [closed_done |]). closed_done.
Qed.

Lemma keeps_closed_main (script_file : string) (c : cli) :
  keeps_closed (main script_file c).
Proof.
  unfold main. closed_bind; [closed_done |].
  destruct (negb a); [closed_bind; closed_done |].
  apply keeps_closed_create_mod_structure.
Qed.

(** *** Sequences of writes *)

Lemma apply_writes_snoc (ws : list (path * string)) (p : path) (content : string)
    (fs : gmap path node) :
  apply_writes (ws ++ [(p, content)]) fs = <[p := File content]> (apply_writes ws fs).
Proof. unfold apply_writes. by rewrite fold_left_app. Qed.

Lemma apply_writes_app (ws1 ws2 : list (path * string)) (fs : gmap path node) :
  apply_writes (ws1 ++ ws2) fs = apply_writes ws2 (apply_writes ws1 fs).
Proof. unfold apply_writes. by rewrite fold_left_app. Qed.

(** An entry that is overwritten at the end does not matter before. *)
Lemma apply_writes_shadow (ws : list (path * string)) (p : path) (n1 n2 : node)
    (fs : gmap path node) :
  <[p := n2]> (apply_writes ws (<[p := n1]> fs)) = <[p := n2]> (apply_writes ws fs).
Proof.
  revert fs. induction ws as [|[q c] ws IH]; intros fs; simpl.
  - by rewrite insert_insert_eq.
  - destruct (decide (q = p)) as [-> | Hne].
    + by rewrite insert_insert_eq.
    + rewrite insert_insert_ne by done. apply IH.
Qed.

(** Writing the same sequence again changes nothing. *)
Lemma apply_writes_idemp (ws : list (path * string)) (fs : gmap path node) :
  apply_writes ws (apply_writes ws fs) = apply_writes ws fs.
Proof.
  induction ws as [|[p c] ws IH] using rev_ind; [done |].
  rewrite !apply_writes_snoc. rewrite apply_writes_shadow. by rewrite IH.
Qed.

Lemma apply_writes_lookup_ne (ws : list (path * string)) (q : path)
    (fs : gmap path node) :
  q ∉ ws.*1 → apply_writes ws fs !! q = fs !! q.
Proof.
  revert fs. induction ws as [|[p c] ws IH]; intros fs Hq; [done |].
  simpl in *. apply not_elem_of_cons in Hq as [Hne Hq].
  rewrite IH by done. by rewrite lookup_insert_ne.
Qed.

Lemma apply_writes_lookup (ws : list (path * string)) (p : path) (content : string)
    (fs : gmap path node) :
  NoDup ws.*1 → (p, content) ∈ ws → apply_writes ws fs !! p = Some (File content).
Proof.
  revert fs. induction ws as [|[q c] ws IH]; intros fs Hnd Hin.
  - by apply elem_of_nil in Hin.
  - simpl in *. apply NoDup_cons in Hnd as [Hq Hnd].
    apply elem_of_cons in Hin as [[= -> ->] | Hin].
    + rewrite apply_writes_lookup_ne by done. by rewrite lookup_insert_eq.
    + by apply IH.
Qed.

(** ** Parsing paths *)

Lemma last_char_app (a b : string) : b ≠ "" → last_char (a +:+ b) = last_char b.
Proof.
  intros Hb. induction a as [|c a IH]; [done |].
  simpl. rewrite <- IH. destruct (a +:+ b) eqn:E; [| done].
  destruct a; [| done]. simpl in E. congruence.
Qed.

Lemma split_slash_plain (s : string) :
  char_in "/" s = false → split_slash s = [s].
Proof.
  induction s as [|c s IH]; intros H; [done |].
  simpl in H. apply orb_false_elim in H as [Hc Hs].
  simpl. rewrite Ascii.eqb_sym, Hc. by rewrite IH.
Qed.

(** Appending slash-free text extends the last piece. *)
Lemma split_slash_app (s suffix : string) :
  char_in "/" suffix = false →
  ∃ pieces piece,
    split_slash s = pieces ++ [piece] ∧
    split_slash (s +:+ suffix) = pieces ++ [piece +:+ suffix].
Proof.
  intros Hsuf. induction s as [|c s (pieces & piece & E1 & E2)].
  - exists [], "". simpl. by rewrite split_slash_plain.
  - simpl. rewrite E1, E2. destruct (Ascii.eqb c "/").
    + by exists ("" :: pieces), piece.
    + destruct pieces as [|x pieces]; simpl.
      * by exists [], (String c piece).
      * by exists (String c x :: pieces), piece.
Qed.

Lemma is_name_app (x suffix : string) :
  suffix ≠ "" → last_char suffix ≠ Some "."%char → is_name (x +:+ suffix) = true.
Proof.
  intros Hne Hdot. unfold is_name.
  apply andb_true_intro. split; apply negb_true_iff, String.eqb_neq; intros E.
  - destruct x; simpl in E; congruence.
  - apply (f_equal last_char) in E. rewrite last_char_app in E by done. done.
Qed.

(** A path string that ends in slash-free text: the last part of the path
    ends in that text. *)
Lemma Path_last (s suffix : string) :
  suffix ≠ "" → char_in "/" suffix = false → last_char suffix ≠ Some "."%char →
  ∃ piece, last (Path (s +:+ suffix)) = Some (piece +:+ suffix).
Proof.
  intros Hne Hslash Hdot.
  destruct (split_slash_app s suffix Hslash) as (pieces & piece & _ & E).
  exists piece. unfold Path. rewrite E, filter_app, filter_cons_True, filter_nil.
  - by rewrite app_assoc, last_snoc.
  - by apply is_name_app.
Qed.

Lemma path_join_last_char (p : path) (s suffix : string) :
  suffix ≠ "" → char_in "/" suffix = false → last_char suffix ≠ Some "."%char →
  path_last_char (p // (s +:+ suffix)) = last_char suffix.
Proof.
  intros Hne Hslash Hdot.
  destruct (Path_last s suffix Hne Hslash Hdot) as [piece E].
  unfold path_last_char, path_join.
  destruct (path_root _).
  - rewrite E. simpl. by apply last_char_app.
  - rewrite last_app, E. simpl. by apply last_char_app.
Qed.

(** The mod id as a file name: without a slash, [mod_id + suffix] is a
    single part. *)
Lemma path_join_name (p : path) (name suffix : string) :
  char_in "/" name = false → char_in "/" suffix = false →
  suffix ≠ "" → last_char suffix ≠ Some "."%char →
  p // (name +:+ suffix) = p ++ [name +:+ suffix].
Proof.
  intros Hname Hsuf Hne Hdot.
  assert (char_in "/" (name +:+ suffix) = false) as Hall.
  { clear Hne Hdot. induction name as [|c name IH]; [done |].
    simpl in *. apply orb_false_elim in Hname as [-> ?]. by apply IH. }
  assert (path_root (name +:+ suffix) = None) as Hroot.
  { destruct (name +:+ suffix) as [|c s]; [done |]. simpl in Hall.
    apply orb_false_elim in Hall as [Hc _]. apply ascii_eqb_false in Hc.
    simpl. destruct c as [[] [] [] [] [] [] [] []]; try done. }
  unfold path_join, Path. rewrite Hroot, split_slash_plain by done.
  rewrite filter_cons_True, filter_nil; [done |]. by apply is_name_app.
Qed.

(** ** The template loop *)

Lemma settled_refl (fs : gmap path node) : settled fs fs.
Proof. by repeat split. Qed.

Lemma settled_trans (fs1 fs2 fs3 : gmap path node) :
  settled fs1 fs2 → settled fs2 fs3 → settled fs1 fs3.
Proof.
  intros (D1 & T1 & N1) (D2 & T2 & N2). repeat split.
  - intros H. by apply D1, D2.
  - intros H. by apply D2, D1.
  - intros q H. by rewrite T2, T1.
  - intros q H. by apply N1, N2.
Qed.

(** Writing a file that is no template, where no directory is. *)
Lemma settled_write (fs : gmap path node) (p : path) (content : string) :
  stat fs p ≠ Some Dir → path_last_char p ≠ Some "e"%char →
  settled fs (<[p := File content]> fs).
Proof.
  intros Hp He. repeat split.
  - by apply stat_insert_File_Dir.
  - by apply stat_insert_File_Dir.
  - intros q Hq. apply stat_insert_ne. congruence.
  - intros q. destruct (decide (p = q)) as [<- | Hne].
    + rewrite stat_insert_eq by by eapply stat_not_root. done.
    + by rewrite stat_insert_ne.
Qed.

Lemma template_path_last_char (templates_dir : path) (entry : string * string) :
  entry ∈ TEMPLATES → path_last_char (templates_dir // entry.2) = Some "e"%char.
Proof.
  intros H. unfold TEMPLATES in H.
  repeat (apply elem_of_cons in H as [-> | H]); [.. | by apply elem_of_nil in H];
    cbn [snd];
    match goal with
    | |- path_last_char (_ // ?t) = _ =>
        by apply (path_join_last_char templates_dir "" t)
    end.
Qed.

Lemma out_path_last_char (mod_dir src_dir : path) (mod_id : string)
    (entry : string * string) :
  entry ∈ TEMPLATES →
  path_last_char (out_path mod_dir src_dir mod_id entry.1) ≠ Some "e"%char.
Proof.
  intros H. unfold TEMPLATES in H.
  repeat (apply elem_of_cons in H as [-> | H]); [.. | by apply elem_of_nil in H];
    cbn [fst]; unfold out_path; simpl.
  - change "SubModule.cs" with ("" +:+ "SubModule.cs").
    by rewrite path_join_last_char.
  - by rewrite path_join_last_char.
  - by rewrite path_join_last_char.
  - change "SubModule.xml" with ("" +:+ "SubModule.xml").
    by rewrite path_join_last_char.
  - by rewrite path_join_last_char.
Qed.

Section template_loop.
Context (mod_dir src_dir templates_dir : path).
Context (config : gmap string string) (mod_id : string).

#[local] Abbreviation body := (process_template mod_dir src_dir templates_dir config mod_id).
#[local] Abbreviation planned := (planned_write mod_dir src_dir templates_dir config mod_id).
#[local] Abbreviation message := (loop_message mod_dir src_dir templates_dir mod_id).
#[local] Abbreviation ok := (entry_ok mod_dir src_dir templates_dir config mod_id).

(** One turn of the loop, when it goes through. *)
Lemma process_template_ok (entry : string * string) (w : world) :
ok (files w) entry →
body entry w
= (inr tt, World (apply_writes (planned (files w) entry) (files w))
                 (stdout w ++ [message (files w) entry])).
Proof.
unfold entry_ok, planned_write, loop_message, process_template.
destruct (stat (files w) (templates_dir // entry.2)) as [[|content]|] eqn:E;
  [done | |].
- intros ([text Htext] & Hdir & Hparent).
  rewrite (bind_ok _ _ _ _ _ (path_exists_Some _ _ _ E)). cbn [negb].
  rewrite (bind_ok _ _ _ _ _ (read_text_File _ _ _ E)), Htext.
  erewrite bind_ok by reflexivity.
  by erewrite bind_ok by (by apply write_text_ok).
- intros _. by rewrite (bind_ok _ _ _ _ _ (path_exists_None _ _ E)).
Qed.

(** One turn of the loop goes through only on a missing template or on a
    template file that renders and can be written. *)
Lemma process_template_inv (entry : string * string) (w w' : world) :
body entry w = (inr tt, w') → ok (files w) entry.
Proof.
unfold entry_ok, process_template. intros H.
destruct (stat (files w) (templates_dir // entry.2)) as [[|content]|] eqn:E;
  [| | done].
- rewrite (bind_ok _ _ _ _ _ (path_exists_Some _ _ _ E)) in H. cbn [negb] in H.
  by rewrite (bind_raise _ _ _ _ _ (read_text_Dir _ _ E)) in H.
- rewrite (bind_ok _ _ _ _ _ (path_exists_Some _ _ _ E)) in H. cbn [negb] in H.
  rewrite (bind_ok _ _ _ _ _ (read_text_File _ _ _ E)) in H.
  destruct (replace_placeholders content config) as [e | text].
  { by erewrite bind_raise in H by reflexivity. }
  erewrite bind_ok in H by reflexivity.
  apply bind_inv in H as ([] & w1 & W & _).
  apply write_text_inv in W as (? & ? & _). eauto.
Qed.

Lemma ok_settled (fs fs' : gmap path node) (entry : string * string) :
  entry ∈ TEMPLATES → settled fs fs' → ok fs entry → ok fs' entry.
Proof.
  intros Hin (HD & HT & HN). unfold entry_ok.
  rewrite HT by by apply template_path_last_char.
  destruct (stat fs (templates_dir // entry.2)) as [[|content]|]; [done | | done].
  intros (Htext & Hdir & Hparent). split; [done |]. split.
  - intros H. by apply HD in H.
  - intros H. by apply HD, Hparent, HN.
Qed.

Lemma planned_settled (fs fs' : gmap path node) (entry : string * string) :
  entry ∈ TEMPLATES → settled fs fs' → planned fs' entry = planned fs entry.
Proof.
  intros Hin (_ & HT & _). unfold planned_write.
  by rewrite HT by by apply template_path_last_char.
Qed.

Lemma message_settled (fs fs' : gmap path node) (entry : string * string) :
  entry ∈ TEMPLATES → settled fs fs' → message fs' entry = message fs entry.
Proof.
  intros Hin (_ & HT & _). unfold loop_message.
  by rewrite HT by by apply template_path_last_char.
Qed.

Lemma planned_write_settled (fs : gmap path node) (entry : string * string) :
  entry ∈ TEMPLATES → ok fs entry →
  settled fs (apply_writes (planned fs entry) fs).
Proof.
  intros Hin. unfold entry_ok, planned_write.
  destruct (stat fs (templates_dir // entry.2)) as [[|content]|];
    [done | | intros _; apply settled_refl].
  intros ([text ->] & Hdir & _). simpl.
  apply settled_write; [done |]. by apply out_path_last_char.
Qed.

Lemma bind_planned_settled (fs fs' : gmap path node) (table : list (string * string)) :
  Forall (λ entry, entry ∈ TEMPLATES) table → settled fs fs' →
  table ≫= planned fs' = table ≫= planned fs ∧
  message fs' <$> table = message fs <$> table.
Proof.
  intros Htable Hs. induction Htable as [|entry table Hin _ [IH1 IH2]]; [done |].
  rewrite !bind_cons, !fmap_cons, IH1, IH2.
  by rewrite (planned_settled fs fs'), (message_settled fs fs').
Qed.

(** The loop goes through when each of its turns can, judged from the
    file system it starts in. *)
Lemma for_each_ok (table : list (string * string)) (w : world) :
Forall (λ entry, entry ∈ TEMPLATES) table →
Forall (ok (files w)) table →
for_each table body w
= (inr tt, World (apply_writes (table ≫= planned (files w)) (files w))
                 (stdout w ++ (message (files w) <$> table))) ∧
settled (files w) (apply_writes (table ≫= planned (files w)) (files w)).
Proof.
intros Htable. revert w.
induction Htable as [|entry table Hin Htable IH]; intros w Hok.
- simpl. rewrite app_nil_r. split; [by destruct w | apply settled_refl].
- apply Forall_cons in Hok as [Hentry Hok].
  pose proof (planned_write_settled (files w) entry Hin Hentry) as Hs.
  cbn [for_each]. rewrite (bind_ok _ _ _ _ _ (process_template_ok entry w Hentry)).
  destruct (IH (World (apply_writes (planned (files w) entry) (files w))
                      (stdout w ++ [message (files w) entry]))) as [E Hs'].
  { simpl. apply Forall_forall. intros e He.
    apply (ok_settled (files w)); [| done |].
    - by apply (Forall_forall (λ entry, entry ∈ TEMPLATES) table).
    - by apply (Forall_forall (ok (files w)) table). }
  cbn [files stdout] in E, Hs'.
  destruct (bind_planned_settled _ _ table Htable Hs) as [-> ->] in E, Hs'.
  rewrite E, bind_cons, fmap_cons, apply_writes_app, <- app_assoc.
  split; [done |]. by eapply settled_trans.
Qed.

(** When the loop went through, each of its turns can go through again in
    the file system it left. *)
Lemma for_each_inv (table : list (string * string)) (w w' : world) :
Forall (λ entry, entry ∈ TEMPLATES) table →
for_each table body w = (inr tt, w') →
Forall (ok (files w')) table ∧
settled (files w) (files w') ∧
files w' = apply_writes (table ≫= planned (files w)) (files w) ∧
stdout w' = stdout w ++ (message (files w) <$> table).
Proof.
intros Htable. revert w.
induction Htable as [|entry table Hin Htable IH]; intros w H.
- simpl in H. injection H as <-. rewrite app_nil_r.
  split; [constructor |]. split; [apply settled_refl | done].
- cbn [for_each] in H. apply bind_inv in H as ([] & w1 & H1 & H2).
  pose proof (process_template_inv _ _ _ H1) as Hentry.
  rewrite (process_template_ok entry w Hentry) in H1. injection H1 as <-.
  pose proof (planned_write_settled (files w) entry Hin Hentry) as Hs.
  apply IH in H2 as (Hok & Hs' & Hfiles & Hout). cbn [files stdout] in *.
  destruct (bind_planned_settled _ _ table Htable Hs) as [E1 E2].
  rewrite E1 in Hfiles. rewrite E2 in Hout.
  assert (settled (files w) (files w')) as Hs'' by by eapply settled_trans.
  split; [| split; [done |]].
  + constructor; [| done]. by apply (ok_settled (files w)).
  + by rewrite Hfiles, Hout, bind_cons, fmap_cons, apply_writes_app, <- app_assoc.
Qed.

(** What one turn of the loop does, in every case. *)
Lemma process_template_result (entry : string * string) (w : world) :
body entry w
= match entry_error mod_dir src_dir templates_dir config mod_id (files w) entry with
  | Some e => (inl e, w)
  | None => (inr tt, World (apply_writes (planned (files w) entry) (files w))
                           (stdout w ++ [message (files w) entry]))
  end.
Proof.
destruct (entry_error _ _ _ _ _ _ _) as [e|] eqn:Herr.
- unfold entry_error in Herr. unfold process_template.
  destruct (stat (files w) (templates_dir // entry.2)) as [[|content]|] eqn:E;
    [| | done].
  + injection Herr as <-.
    rewrite (bind_ok _ _ _ _ _ (path_exists_Some _ _ _ E)). cbn [negb].
    by rewrite (bind_raise _ _ _ _ _ (read_text_Dir _ _ E)).
  + rewrite (bind_ok _ _ _ _ _ (path_exists_Some _ _ _ E)). cbn [negb].
    rewrite (bind_ok _ _ _ _ _ (read_text_File _ _ _ E)).
    destruct (replace_placeholders content config) as [e' | text].
    { injection Herr as <-. by erewrite bind_raise by reflexivity. }
    erewrite bind_ok by reflexivity.
    apply bind_raise. unfold write_text.
    destruct (stat (files w) (out_path mod_dir src_dir mod_id entry.1)) as [[|c]|];
      [by injection Herr as <- | done |].
    destruct (stat (files w) (path_parent _)) as [[|c]|];
      [done | by injection Herr as <- ..].
- apply process_template_ok. unfold entry_error in Herr. unfold entry_ok.
  destruct (stat (files w) (templates_dir // entry.2)) as [[|content]|]; [done | | done].
  destruct (replace_placeholders content config) as [e' | text]; [done |].
  split; [by exists text |].
  destruct (stat (files w) (out_path mod_dir src_dir mod_id entry.1)) as [[|c]|];
    [done | done |].
  split; [done |]. intros _.
  by destruct (stat (files w) (path_parent _)) as [[|c]|].
Qed.

Lemma for_each_app (t1 t2 : list (string * string)) (w ws : world) :
for_each t1 body w = (inr tt, ws) →
for_each (t1 ++ t2) body w = for_each t2 body ws.
Proof.
revert w. induction t1 as [|entry t1 IH]; intros w H.
- simpl in H. by injection H as <-.
- cbn [for_each] in H. apply bind_inv in H as ([] & w1 & H1 & H2).
  simpl. rewrite (bind_ok _ _ _ _ _ H1). by apply IH.
Qed.

(** When the loop raises, the turns before went through and the raising
    turn left the world as it found it. *)
Lemma for_each_raise (table : list (string * string)) (w w' : world) (e : exn) :
for_each table body w = (inl e, w') →
∃ t1 entry t2,
  table = t1 ++ entry :: t2 ∧
  for_each t1 body w = (inr tt, w') ∧
  entry_error mod_dir src_dir templates_dir config mod_id (files w') entry = Some e.
Proof.
revert w. induction table as [|entry table IH]; intros w H; [done |].
cbn [for_each] in H. pose proof (process_template_result entry w) as Hbody.
destruct (entry_error _ _ _ _ _ _ _) as [e0|] eqn:Herr.
- rewrite (bind_raise _ _ _ _ _ Hbody) in H. injection H as <- <-.
  by exists [], entry, table.
- rewrite (bind_ok _ _ _ _ _ Hbody) in H.
  apply IH in H as (t1 & entry' & t2 & -> & H1 & H2).
  exists (entry :: t1), entry', t2. split; [done |]. split; [| done].
  cbn [for_each]. by rewrite (bind_ok _ _ _ _ _ Hbody).
Qed.

(** A loop that went through goes through again in any later file system,
    with the same writes and the same lines. *)
Lemma for_each_again (table : list (string * string)) (w ws w2 : world) :
Forall (λ entry, entry ∈ TEMPLATES) table →
for_each table body w = (inr tt, ws) →
settled (files ws) (files w2) →
for_each table body w2
= (inr tt, World (apply_writes (table ≫= planned (files w)) (files w2))
                 (stdout w2 ++ (message (files w) <$> table))) ∧
settled (files w2) (apply_writes (table ≫= planned (files w)) (files w2)).
Proof.
intros Htable H S2.
apply (for_each_inv _ _ _ Htable) in H as (Hok & S & _ & _).
destruct (for_each_ok table w2 Htable) as [H2 S2'].
{ apply Forall_forall. intros entry Hin. apply (ok_settled (files ws)); [| done |].
  - by apply (Forall_forall (λ entry, entry ∈ TEMPLATES) table).
  - by apply (Forall_forall (ok (files ws)) table). }
assert (settled (files w) (files w2)) as S' by by eapply settled_trans.
by destruct (bind_planned_settled _ _ table Htable S') as [<- <-].
Qed.

End template_loop.

(** ** [create_mod_structure], step by step *)

Section run.
Context (output_dir : path) (config : gmap string string) (templates_dir : path).
Context (mod_id : string).

#[local] Abbreviation mod_dir := (output_dir // mod_id).
#[local] Abbreviation src_dir := (output_dir // mod_id // "src").
#[local] Abbreviation body :=
  (process_template mod_dir src_dir templates_dir config mod_id).
#[local] Abbreviation planned :=
  (planned_write mod_dir src_dir templates_dir config mod_id).
#[local] Abbreviation message :=
  (loop_message mod_dir src_dir templates_dir mod_id).

Lemma closing_prints (w : world) :
  (print (nl +:+ "Mod created successfully at: " +:+ path_str mod_dir);;
   print (nl +:+ "Next steps:");;
   print ("  1. Update GameFolder path in src/" +:+ mod_id +:+ ".csproj");;
   print "  2. Open the project in Visual Studio/Rider";;
   print "  3. Restore NuGet packages";;
   print "  4. Build and test!") w
  = (inr tt, World (files w) (stdout w ++ closing_lines mod_dir mod_id)).
Proof.
  unfold mbind, M_bind, bind, print, closing_lines. cbn [files stdout].
  by rewrite <- !app_assoc.
Qed.

Lemma create_mod_structure_steps (mod_name : string) (w w1 w2 w3 w4 w5 w6 : world) :
  config !! "mod_id" = Some mod_id → config !! "mod_name" = Some mod_name →
  run_steps output_dir config templates_dir mod_id mod_name w w1 w2 w3 w4 w5 w6 →
  create_mod_structure output_dir config templates_dir w
  = (inr tt, World (files w6) (stdout w6 ++ closing_lines mod_dir mod_id)).
Proof.
  intros Hid Hname (H1 & H2 & H3 & H4 & H5 & H6). unfold create_mod_structure.
  rewrite (getitem_Some _ _ _ Hid). erewrite bind_ok by reflexivity.
  rewrite (bind_ok _ _ _ _ _ H1), (bind_ok _ _ _ _ _ H2), (bind_ok _ _ _ _ _ H3).
  rewrite (bind_ok _ _ _ _ _ H4), (bind_ok _ _ _ _ _ H5).
  rewrite (getitem_Some _ _ _ Hname). erewrite bind_ok by reflexivity.
  rewrite (bind_ok _ _ _ _ _ H6). apply closing_prints.
Qed.

Lemma create_mod_structure_inv (w w' : world) :
  config !! "mod_id" = Some mod_id →
  create_mod_structure output_dir config templates_dir w = (inr tt, w') →
  ∃ mod_name w1 w2 w3 w4 w5 w6,
    config !! "mod_name" = Some mod_name ∧
    run_steps output_dir config templates_dir mod_id mod_name w w1 w2 w3 w4 w5 w6 ∧
    w' = World (files w6) (stdout w6 ++ closing_lines mod_dir mod_id).
Proof.
  intros Hid. unfold create_mod_structure.
  rewrite (getitem_Some _ _ _ Hid). erewrite bind_ok by reflexivity. intros H.
  apply bind_inv in H as ([] & w1 & H1 & H).
  apply bind_inv in H as ([] & w2 & H2 & H).
  apply bind_inv in H as ([] & w3 & H3 & H).
  apply bind_inv in H as ([] & w4 & H4 & H).
  apply bind_inv in H as ([] & w5 & H5 & H).
  apply bind_inv in H as (mod_name & w5' & Hname & H).
  apply lift_inv in Hname as [Hname%getitem_inv ->].
  apply bind_inv in H as ([] & w6 & H6 & H).
  rewrite closing_prints in H. injection H as <-.
  by exists mod_name, w1, w2, w3, w4, w5, w6.
Qed.
End run.

(** ** Running twice *)

Lemma readme_path_last_char (mod_dir : path) :
  path_last_char (mod_dir // "README.md") ≠ Some "e"%char.
Proof.
  change "README.md" with ("" +:+ "README.md").
  by rewrite path_join_last_char.
Qed.

Lemma Forall_TEMPLATES : Forall (λ entry, entry ∈ TEMPLATES) TEMPLATES.
Proof. by apply Forall_forall. Qed.

(** The function from the second statement on, for a configuration that
    has a mod id. *)
Lemma create_mod_structure_unfold (output_dir : path) (config : gmap string string)
    (templates_dir : path) (mod_id : string) (w : world) :
  config !! "mod_id" = Some mod_id →
  create_mod_structure output_dir config templates_dir w
  = (mkdir_parents (output_dir // mod_id) true;;
     mkdir_parents (output_dir // mod_id // "bin" // "Win64_Shipping_Client") true;;
     mkdir (output_dir // mod_id // "ModuleData") true;;
     mkdir (output_dir // mod_id // "src") true;;
     for_each TEMPLATES
       (process_template (output_dir // mod_id) (output_dir // mod_id // "src")
          templates_dir config mod_id);;
     write_readme_and_close config (output_dir // mod_id) mod_id) w.
Proof.
  intros Hid. unfold create_mod_structure.
  rewrite (getitem_Some _ _ _ Hid). by erewrite bind_ok by reflexivity.
Qed.

Lemma write_readme_and_close_result (config : gmap string string) (mod_dir : path)
    (mod_id : string) (w : world) :
  write_readme_and_close config mod_dir mod_id w
  = match config !! "mod_name" with
    | None => (inl (KeyError "mod_name"), w)
    | Some mod_name =>
        match write_text (mod_dir // "README.md") (readme_content mod_name mod_id) w with
        | (inl e, w6) => (inl e, w6)
        | (inr _, w6) =>
            (inr tt, World (files w6) (stdout w6 ++ closing_lines mod_dir mod_id))
        end
    end.
Proof.
  unfold write_readme_and_close, getitem.
  destruct (config !! "mod_name") as [mod_name|];
    [| by erewrite bind_raise by reflexivity].
  erewrite bind_ok by reflexivity.
  destruct (write_text _ _ w) as [[e | []] w6] eqn:W.
  - by rewrite (bind_raise _ _ _ _ _ W).
  - rewrite (bind_ok _ _ _ _ _ W).
    unfold mbind, M_bind, bind, print, closing_lines. cbn [files stdout].
    by rewrite <- !app_assoc.
Qed.

Lemma world_eta (w : world) : World (files w) (stdout w ++ []) = w.
Proof. destruct w. simpl. by rewrite app_nil_r. Qed.

(** Where the four directories are, the four [mkdir] calls do nothing. *)
Lemma mkdirs_again (mod_dir : path) (k : M unit) (w : world) :
  stat (files w) mod_dir = Some Dir →
  stat (files w) (mod_dir // "bin" // "Win64_Shipping_Client") = Some Dir →
  stat (files w) (mod_dir // "ModuleData") = Some Dir →
  stat (files w) (mod_dir // "src") = Some Dir →
  (mkdir_parents mod_dir true;;
   mkdir_parents (mod_dir // "bin" // "Win64_Shipping_Client") true;;
   mkdir (mod_dir // "ModuleData") true;;
   mkdir (mod_dir // "src") true;; k) w = k w.
Proof.
  intros D1 D2 D3 D4.
  rewrite (bind_ok _ _ _ _ _ (mkdir_parents_Dir _ _ D1)).
  rewrite (bind_ok _ _ _ _ _ (mkdir_parents_Dir _ _ D2)).
  rewrite (bind_ok _ _ _ _ _ (mkdir_Dir _ _ D3)).
  by rewrite (bind_ok _ _ _ _ _ (mkdir_Dir _ _ D4)).
Qed.

(** C7: running [create_mod_structure] again with the same configuration,
    on the file system the first run left, has the outcome of the first run
    (it returns, or raises the same exception), prints the same lines and
    leaves the file system exactly as it found it: every output file is
    written again with the content it already has.  This holds for every
    configuration, every pair of directories and every file system. *)
Theorem create_mod_structure_idempotent (output_dir : path)
    (config : gmap string string) (templates_dir : path) (w w' : world)
    (r : result unit) :
  create_mod_structure output_dir config templates_dir w = (r, w') →
  ∃ lines,
    stdout w' = stdout w ++ lines ∧
    create_mod_structure output_dir config templates_dir w'
    = (r, World (files w') (stdout w' ++ lines)).
Proof.
  intros Hrun.
  destruct (config !! "mod_id") as [mod_id|] eqn:Hid; cycle 1.
  { unfold create_mod_structure, getitem in *. rewrite Hid in *.
    erewrite bind_raise in Hrun by reflexivity. injection Hrun as <- <-.
    exists []. split; [by rewrite app_nil_r |].
    rewrite world_eta. by erewrite bind_raise by reflexivity. }
  rewrite (create_mod_structure_unfold _ _ _ mod_id) in Hrun |- * by done.
  set (mod_dir := output_dir // mod_id) in *.
  set (finish := write_readme_and_close config mod_dir mod_id) in *.
  set (body := process_template mod_dir (mod_dir // "src") templates_dir config mod_id)
    in *.
  (* the mod directory *)
  destruct (mkdir_parents mod_dir true w) as [[e | []] w1] eqn:H1.
  { pose proof (mkdir_parents_raise _ _ _ _ H1) as ->.
    rewrite (bind_raise _ _ _ _ _ H1) in Hrun. injection Hrun as <- <-.
    exists []. split; [by rewrite app_nil_r |].
    rewrite world_eta. by rewrite (bind_raise _ _ _ _ _ H1). }
  rewrite (bind_ok _ _ _ _ _ H1) in Hrun.
  apply mkdir_parents_inv in H1 as (O1 & D1 & A1).
  (* bin/Win64_Shipping_Client *)
  destruct (mkdir_parents (mod_dir // "bin" // "Win64_Shipping_Client") true w1)
    as [[e | []] w2] eqn:H2.
  { pose proof (mkdir_parents_raise _ _ _ _ H2) as ->.
    rewrite (bind_raise _ _ _ _ _ H2) in Hrun. injection Hrun as <- <-.
    exists []. split; [by rewrite app_nil_r, O1 |].
    rewrite world_eta.
    rewrite (bind_ok _ _ _ _ _ (mkdir_parents_Dir _ _ D1)).
    by rewrite (bind_raise _ _ _ _ _ H2). }
  rewrite (bind_ok _ _ _ _ _ H2) in Hrun.
  apply mkdir_parents_inv in H2 as (O2 & D2 & A2).
  pose proof (adds_dirs_stat_Some _ _ _ _ _ A2 D1) as D12.
  (* ModuleData *)
  destruct (mkdir (mod_dir // "ModuleData") true w2) as [[e | []] w3] eqn:H3.
  { pose proof (mkdir_raise _ _ _ _ _ H3) as ->.
    rewrite (bind_raise _ _ _ _ _ H3) in Hrun. injection Hrun as <- <-.
    exists []. split; [by rewrite app_nil_r, O2, O1 |].
    rewrite world_eta.
    rewrite (bind_ok _ _ _ _ _ (mkdir_parents_Dir _ _ D12)).
    rewrite (bind_ok _ _ _ _ _ (mkdir_parents_Dir _ _ D2)).
    by rewrite (bind_raise _ _ _ _ _ H3). }
  rewrite (bind_ok _ _ _ _ _ H3) in Hrun.
  apply mkdir_inv in H3 as (O3 & D3 & A3).
  pose proof (adds_dirs_stat_Some _ _ _ _ _ A3 D12) as D13.
  pose proof (adds_dirs_stat_Some _ _ _ _ _ A3 D2) as D23.
  (* src *)
  destruct (mkdir (mod_dir // "src") true w3) as [[e | []] w4] eqn:H4.
  { pose proof (mkdir_raise _ _ _ _ _ H4) as ->.
    rewrite (bind_raise _ _ _ _ _ H4) in Hrun. injection Hrun as <- <-.
    exists []. split; [by rewrite app_nil_r, O3, O2, O1 |].
    rewrite world_eta.
    rewrite (bind_ok _ _ _ _ _ (mkdir_parents_Dir _ _ D13)).
    rewrite (bind_ok _ _ _ _ _ (mkdir_parents_Dir _ _ D23)).
    rewrite (bind_ok _ _ _ _ _ (mkdir_Dir _ _ D3)).
    by rewrite (bind_raise _ _ _ _ _ H4). }
  rewrite (bind_ok _ _ _ _ _ H4) in Hrun.
  apply mkdir_inv in H4 as (O4 & D4 & A4).
  pose proof (adds_dirs_stat_Some _ _ _ _ _ A4 D13) as D14.
  pose proof (adds_dirs_stat_Some _ _ _ _ _ A4 D23) as D24.
  pose proof (adds_dirs_stat_Some _ _ _ _ _ A4 D3) as D34.
  assert (stdout w4 = stdout w) as O by congruence.
  clear O1 O2 O3 O4 D1 D2 D3 D12 D13 D23 A1 A2 A3 A4 w1 w2 w3.
  assert (∀ w2 : world, settled (files w4) (files w2) →
    ∀ k : M unit,
      (mkdir_parents mod_dir true;;
       mkdir_parents (mod_dir // "bin" // "Win64_Shipping_Client") true;;
       mkdir (mod_dir // "ModuleData") true;;
       mkdir (mod_dir // "src") true;; k) w2 = k w2) as Hdirs.
  { intros w2 S2 k. apply mkdirs_again; by apply S2. }
  (* the loop *)
  destruct (for_each TEMPLATES body w4) as [[e | []] w5] eqn:H5.
  { rewrite (bind_raise _ _ _ _ _ H5) in Hrun. injection Hrun as <- <-.
    apply for_each_raise in H5 as (t1 & entry & t2 & HT & H5 & Herr).
    assert (Forall (λ entry, entry ∈ TEMPLATES) t1) as Ht1.
    { apply Forall_forall. intros x Hx. rewrite HT. apply elem_of_app. by left. }
    pose proof (for_each_inv _ _ _ _ _ _ _ _ Ht1 H5) as (_ & S5 & F5 & O5).
    destruct (for_each_again _ _ _ _ _ _ w4 w5 w5 Ht1 H5 (settled_refl _)) as [L _].
    rewrite F5 in L at 1. rewrite apply_writes_idemp, <- F5 in L.
    eexists. split; [by rewrite O5, O |].
    rewrite Hdirs by done. apply bind_raise.
    rewrite HT. rewrite (for_each_app _ _ _ _ _ _ _ _ _ L).
    cbn [for_each]. apply bind_raise.
    rewrite process_template_result. cbn [files]. by rewrite Herr. }
  rewrite (bind_ok _ _ _ _ _ H5) in Hrun.
  pose proof (for_each_inv _ _ _ _ _ _ _ _ Forall_TEMPLATES H5) as (_ & S5 & F5 & O5).
  set (plan := TEMPLATES ≫= planned_write mod_dir (mod_dir // "src") templates_dir
                 config mod_id (files w4)) in *.
  set (msgs := loop_message mod_dir (mod_dir // "src") templates_dir mod_id (files w4)
                 <$> TEMPLATES) in *.
  (* the README and the closing lines *)
  unfold finish in Hrun. rewrite write_readme_and_close_result in Hrun.
  destruct (config !! "mod_name") as [mod_name|] eqn:Hname; cycle 1.
  { injection Hrun as <- <-.
    destruct (for_each_again _ _ _ _ _ _ w4 w5 w5 Forall_TEMPLATES H5 (settled_refl _))
      as [L _].
    fold plan msgs in L. rewrite F5 in L at 1. rewrite apply_writes_idemp, <- F5 in L.
    exists msgs. split; [by rewrite O5, O |].
    rewrite Hdirs by done. rewrite (bind_ok _ _ _ _ _ L).
    unfold finish. rewrite write_readme_and_close_result. by rewrite Hname. }
  set (readme := mod_dir // "README.md") in *.
  set (text := readme_content mod_name mod_id) in *.
  destruct (write_text readme text w5) as [[e | []] w6] eqn:H6.
  { apply write_text_raise in H6 as [-> H6]. injection Hrun as <- <-.
    destruct (for_each_again _ _ _ _ _ _ w4 w5 w5 Forall_TEMPLATES H5 (settled_refl _))
      as [L _].
    fold plan msgs in L. rewrite F5 in L at 1. rewrite apply_writes_idemp, <- F5 in L.
    exists msgs. split; [by rewrite O5, O |].
    rewrite Hdirs by done. rewrite (bind_ok _ _ _ _ _ L).
    unfold finish. rewrite write_readme_and_close_result, Hname.
    fold readme text. by rewrite H6. }
  apply write_text_inv in H6 as (R5 & _ & ->). cbn [files stdout] in Hrun.
  injection Hrun as <- <-. cbn [files stdout].
  assert (settled (files w5) (<[readme := File text]> (files w5))) as S6.
  { apply settled_write; [done | apply readme_path_last_char]. }
  set (w7 := World (<[readme := File text]> (files w5))
                   (stdout w5 ++ closing_lines mod_dir mod_id)).
  destruct (for_each_again _ _ _ _ _ _ w4 w5 w7 Forall_TEMPLATES H5 S6) as [L S7].
  fold plan msgs in L, S7. cbn [files stdout w7] in L, S7.
  exists (msgs ++ closing_lines mod_dir mod_id).
  split; [by rewrite O5, O, app_assoc |].
  rewrite Hdirs by by eapply settled_trans.
  fold w7. rewrite (bind_ok _ _ _ _ _ L).
  unfold finish. rewrite write_readme_and_close_result, Hname. fold readme text.
  rewrite write_text_ok; cbn [files stdout].
  - f_equal. f_equal.
    + rewrite F5. rewrite <- !(apply_writes_snoc plan readme text).
      apply apply_writes_idemp.
    + by rewrite <- !app_assoc.
  - intros Hd. apply S7 in Hd.
    rewrite stat_insert_eq in Hd by by eapply stat_not_root. done.
  - intros Hn. destruct S7 as (_ & _ & S7). apply S7 in Hn.
    rewrite stat_insert_eq in Hn by by eapply stat_not_root. done.
Qed.

Lemma create_mod_structure_idempotent_witness :
  ∃ lines,
    stdout (create_mod_structure ["out"] sample_config ["tpl"] sample_world).2
    = stdout sample_world ++ lines ∧
    create_mod_structure ["out"] sample_config ["tpl"]
      (create_mod_structure ["out"] sample_config ["tpl"] sample_world).2
    = (inr tt,
       World (files (create_mod_structure ["out"] sample_config ["tpl"] sample_world).2)
             (stdout (create_mod_structure ["out"] sample_config ["tpl"] sample_world).2
              ++ lines)).
Proof.
  apply (create_mod_structure_idempotent ["out"] sample_config ["tpl"] sample_world).
  vm_compute. reflexivity.
Defined.

(** ** [main] *)

(** C6: when the templates directory does not exist, [main] prints the error
    line and exits with status 1; no directory is made and no file written,
    the file system is as before. *)
Theorem main_missing_templates_dir (script_file : string) (c : cli) (w : world) :
  stat (files w) (find_templates_dir script_file (parse_args c)) = None →
  main script_file c w
  = (inl (SystemExit 1),
     World (files w)
           (stdout w ++ [ "Error: Templates directory not found: " +:+
                          path_str (find_templates_dir script_file (parse_args c)) ])).
Proof.
  intros H. unfold main.
  by rewrite (bind_ok _ _ _ _ _ (path_exists_None _ _ H)).
Qed.

Lemma main_missing_templates_dir_witness :
  main "/opt/skill/scripts/generate_mod.py" sample_cli empty_world
  = (inl (SystemExit 1),
     World ∅ ["Error: Templates directory not found: tpl"]).
Proof.
  rewrite (main_missing_templates_dir "/opt/skill/scripts/generate_mod.py"
             sample_cli empty_world).
  - reflexivity.
  - vm_compute. reflexivity.
Defined.

(** C8: an invocation that gives only the mod id builds a configuration in
    which the mod name and the namespace are the mod id, the author is
    ["Anonymous"] and the version is ["1.0.0"]; this holds whatever the
    output and templates directories are. *)
Theorem build_config_defaults (id : string) (output templates : option string) :
  let config := build_config (parse_args (Cli id None None None None output templates)) in
  config !! "mod_id" = Some id ∧
  config !! "mod_name" = Some id ∧
  config !! "namespace" = Some id ∧
  config !! "author" = Some "Anonymous" ∧
  config !! "version" = Some "1.0.0".
Proof. repeat split; reflexivity. Qed.



(** ** A run from an unobstructed file system *)

Lemma path_join_plain (p : path) (name : string) :
  char_in "/" name = false → name ≠ "" → last_char name ≠ Some "."%char →
  p // name = p ++ [name].
Proof. intros. by apply (path_join_name p "" name). Qed.

Lemma path_last_char_snoc (p : path) (a : string) :
  path_last_char (p ++ [a]) = last_char a.
Proof. unfold path_last_char. by rewrite last_snoc. Qed.

Lemma path_last_char_snoc2 (p : path) (a b : string) :
  path_last_char (p ++ [a; b]) = last_char b.
Proof.
  change (p ++ [a; b]) with (p ++ [a] ++ [b]).
  rewrite app_assoc. apply path_last_char_snoc.
Qed.

Lemma is_root_snoc (p : path) (a : string) :
  is_anchor a = false → is_root (p ++ [a]) = false.
Proof. intros H. by destruct p as [|? [|? ?]]. Qed.

Lemma prefix_snoc_cases (q p : path) (a : string) :
  q `prefix_of` p ++ [a] → q `prefix_of` p ∨ q = p ++ [a].
Proof.
  intros [k E]. destruct k as [|b k _] using rev_ind.
  - right. by rewrite app_nil_r in E.
  - left. rewrite app_assoc in E. apply app_inj_tail in E as [-> _].
    by exists k.
Qed.

Lemma made_dirs_cases (mod_dir q : path) :
  made_dirs mod_dir q →
  q `prefix_of` mod_dir ∨
  q = mod_dir ++ ["bin"] ∨ q = mod_dir ++ ["bin"; "Win64_Shipping_Client"] ∨
  q = mod_dir ++ ["ModuleData"] ∨ q = mod_dir ++ ["src"].
Proof.
  intros [H | [-> | ->]]; [| by auto..].
  change (mod_dir ++ ["bin"; "Win64_Shipping_Client"])
    with (mod_dir ++ ["bin"] ++ ["Win64_Shipping_Client"]) in H.
  rewrite app_assoc in H.
  apply prefix_snoc_cases in H as [H | ->].
  - apply prefix_snoc_cases in H as [H | ->]; auto.
  - rewrite <- app_assoc. auto.
Qed.

(** A path strictly below the mod directory whose name ends unlike the
    made directories is none of them. *)
Lemma not_made_dirs (mod_dir q : path) (c : ascii) :
  path_last_char q = Some c →
  c ≠ "n"%char → c ≠ "t"%char → c ≠ "a"%char → c ≠ "c"%char →
  ¬ q `prefix_of` mod_dir →
  ¬ made_dirs mod_dir q.
Proof.
  intros Hc H1 H2 H3 H4 Hpre H.
  apply made_dirs_cases in H as [H | [-> | [-> | [-> | ->]]]]; [done | ..].
  - rewrite path_last_char_snoc in Hc. simpl in Hc. congruence.
  - rewrite path_last_char_snoc2 in Hc. simpl in Hc. congruence.
  - rewrite path_last_char_snoc in Hc. simpl in Hc. congruence.
  - rewrite path_last_char_snoc in Hc. simpl in Hc. congruence.
Qed.

Lemma not_prefix_app (p r : path) : r ≠ [] → ¬ p ++ r `prefix_of` p.
Proof.
  intros Hr [k E]. rewrite <- app_assoc in E.
  rewrite <- (app_nil_r p) in E at 1. apply app_inv_head in E.
  symmetry in E. by apply app_eq_nil in E as [? _].
Qed.

(** The four directories are made, and nothing else changes. *)
Lemma run_makes_dirs (mod_dir : path) (w : world) :
  tree_unobstructed (files w) mod_dir →
  ∃ w1 w2 w3 w4,
    mkdir_parents mod_dir true w = (inr tt, w1) ∧
    mkdir_parents (mod_dir // "bin" // "Win64_Shipping_Client") true w1 = (inr tt, w2) ∧
    mkdir (mod_dir // "ModuleData") true w2 = (inr tt, w3) ∧
    mkdir (mod_dir // "src") true w3 = (inr tt, w4) ∧
    stdout w4 = stdout w ∧
    adds_dirs (made_dirs mod_dir) (files w) (files w4) ∧
    stat (files w4) mod_dir = Some Dir ∧
    stat (files w4) (mod_dir ++ ["bin"; "Win64_Shipping_Client"]) = Some Dir ∧
    stat (files w4) (mod_dir ++ ["ModuleData"]) = Some Dir ∧
    stat (files w4) (mod_dir ++ ["src"]) = Some Dir.
Proof.
  intros (Hway & Hdata & Hsrc & _).
  assert (mod_dir // "bin" // "Win64_Shipping_Client"
          = mod_dir ++ ["bin"; "Win64_Shipping_Client"]) as ->.
  { rewrite !path_join_plain by done. by rewrite <- app_assoc. }
  rewrite !(path_join_plain mod_dir) by done.
  (* the mod directory *)
  destruct (mkdir_parents_ok mod_dir w) as [w1 H1].
  { intros q c Hq. apply Hway. etrans; [exact Hq |]. by apply prefix_app_r. }
  pose proof (mkdir_parents_inv _ _ _ _ H1) as (O1 & D1 & A1).
  (* bin/Win64_Shipping_Client *)
  destruct (mkdir_parents_ok (mod_dir ++ ["bin"; "Win64_Shipping_Client"]) w1)
    as [w2 H2].
  { intros q c Hq Hc.
    destruct (adds_dirs_stat _ _ _ q A1) as [E | (_ & E & _)]; [| congruence].
    rewrite E in Hc. by apply (Hway q c). }
  pose proof (mkdir_parents_inv _ _ _ _ H2) as (O2 & D2 & A2).
  assert (adds_dirs (made_dirs mod_dir) (files w) (files w2)) as A12.
  { eapply adds_dirs_trans; [| | exact A1 | exact A2]; intros q Hq; left; [| done].
    etrans; [exact Hq |]. by apply prefix_app_r. }
  (* ModuleData *)
  destruct (mkdir_ok (mod_dir ++ ["ModuleData"]) w2) as [w3 H3].
  { rewrite path_parent_snoc by by apply is_root_snoc.
    eapply adds_dirs_stat_Some; [exact A2 | exact D1]. }
  { intros c Hc.
    destruct (adds_dirs_stat _ _ _ (mod_dir ++ ["ModuleData"]) A12)
      as [E | (_ & E & _)]; [| congruence].
    rewrite E in Hc. by apply (Hdata c). }
  pose proof (mkdir_inv _ _ _ _ H3) as (O3 & D3 & A3).
  assert (adds_dirs (made_dirs mod_dir) (files w) (files w3)) as A13.
  { eapply adds_dirs_trans; [| | exact A12 | exact A3]; [done |].
    intros q ->. right. by left. }
  (* src *)
  destruct (mkdir_ok (mod_dir ++ ["src"]) w3) as [w4 H4].
  { rewrite path_parent_snoc by by apply is_root_snoc.
    eapply adds_dirs_stat_Some; [exact A3 |].
    eapply adds_dirs_stat_Some; [exact A2 | exact D1]. }
  { intros c Hc.
    destruct (adds_dirs_stat _ _ _ (mod_dir ++ ["src"]) A13)
      as [E | (_ & E & _)]; [| congruence].
    rewrite E in Hc. by apply (Hsrc c). }
  pose proof (mkdir_inv _ _ _ _ H4) as (O4 & D4 & A4).
  exists w1, w2, w3, w4. repeat split; try done.
  - congruence.
  - eapply adds_dirs_trans; [| | exact A13 | exact A4]; [done |].
    intros q ->. right. by right.
  - eauto using adds_dirs_stat_Some.
  - eauto using adds_dirs_stat_Some.
  - eauto using adds_dirs_stat_Some.
Qed.

(** *** Where the outputs go *)

Lemma string_length_app (a b : string) :
  String.length (a +:+ b) = String.length a + String.length b.
Proof. induction a as [|c a IH]; simpl; [done | by rewrite IH]. Qed.

(** Equal strings have equal suffixes of equal length. *)
Lemma append_suffix_eq (x y a b : string) :
  String.length a = String.length b → x +:+ a = y +:+ b → a = b.
Proof.
  intros Hlen. revert y. induction x as [|c x IH]; intros [|d y] E; simpl in E.
  - done.
  - apply (f_equal String.length) in E. simpl in E.
    rewrite string_length_app in E. lia.
  - apply (f_equal String.length) in E. simpl in E.
    rewrite string_length_app in E. lia.
  - injection E as _ E. by apply (IH y).
Qed.

Lemma out_rel_NoDup (mod_id : string) :
  NoDup ((λ entry : string * string, out_rel mod_id entry.1) <$> TEMPLATES).
Proof.
  unfold TEMPLATES, out_rel. simpl.
  assert (∀ a b, String.length a = String.length b → a ≠ b →
                 ∀ x, ["src"; x +:+ a] ≠ ["src"; mod_id +:+ b]) as Hsuffix.
  { intros a b Hlen Hne x [= E]. by apply append_suffix_eq in E. }
  assert (∀ a b, last_char a ≠ last_char b → a ≠ "" → b ≠ "" →
                 ∀ x, ["src"; x +:+ a] ≠ ["src"; mod_id +:+ b]) as Hlast.
  { intros a b Hne Ha Hb x [= E]. apply (f_equal last_char) in E.
    by rewrite !last_char_app in E. }
  repeat (apply NoDup_cons; split); [.. | apply NoDup_nil_2];
    rewrite ?not_elem_of_cons; repeat split; try apply not_elem_of_nil; try done.
  - by apply (Hsuffix "ubModule.cs" "Settings.cs" eq_refl ltac:(done) "S").
  - by apply (Hsuffix "ubModule.cs" "Behavior.cs" eq_refl ltac:(done) "S").
  - by apply (Hlast "SubModule.cs" ".csproj" ltac:(done) ltac:(done) ltac:(done) "").
  - by apply (Hsuffix "Settings.cs" "Behavior.cs").
  - by apply (Hlast "Settings.cs" ".csproj").
  - by apply (Hlast "Behavior.cs" ".csproj").
Qed.


(** With a plain mod id the outputs go to [out_rel] below the mod
    directory. *)
Lemma out_path_rel (mod_dir : path) (mod_id : string) (entry : string * string) :
  char_in "/" mod_id = false → entry ∈ TEMPLATES →
  out_path mod_dir (mod_dir // "src") mod_id entry.1
  = mod_dir ++ out_rel mod_id entry.1.
Proof.
  intros Hid H. rewrite (path_join_plain mod_dir "src") by done.
  unfold TEMPLATES in H.
  repeat (apply elem_of_cons in H as [-> | H]); [.. | by apply elem_of_nil in H];
    cbn [fst]; unfold out_path, out_rel; simpl.
  - rewrite path_join_plain by done. by rewrite <- app_assoc.
  - rewrite path_join_name by done. by rewrite <- app_assoc.
  - rewrite path_join_name by done. by rewrite <- app_assoc.
  - by rewrite path_join_plain.
  - rewrite path_join_name by done. by rewrite <- app_assoc.
Qed.

Lemma out_rel_last_char (mod_id : string) (entry : string * string) :
  entry ∈ TEMPLATES →
  ∃ c, path_last_char (out_rel mod_id entry.1) = Some c ∧
       c ≠ "n"%char ∧ c ≠ "t"%char ∧ c ≠ "a"%char ∧ c ≠ "c"%char ∧ c ≠ "d"%char.
Proof.
  intros H. unfold TEMPLATES in H.
  repeat (apply elem_of_cons in H as [-> | H]); [.. | by apply elem_of_nil in H];
    cbn [fst]; unfold out_rel, path_last_char; simpl;
    rewrite ?last_char_app by done; by eexists.
Qed.

Lemma out_rel_parent (mod_dir : path) (mod_id : string) (entry : string * string) :
  entry ∈ TEMPLATES →
  out_rel mod_id entry.1 ≠ [] ∧
  (path_parent (mod_dir ++ out_rel mod_id entry.1) = mod_dir ∨
   path_parent (mod_dir ++ out_rel mod_id entry.1) = mod_dir ++ ["src"]).
Proof.
  intros H. unfold TEMPLATES in H.
  repeat (apply elem_of_cons in H as [-> | H]); [.. | by apply elem_of_nil in H];
    cbn [fst]; unfold out_rel; simpl; (split; [done |]).
  all: try (right; unfold path_parent; rewrite is_root_app;
            change (mod_dir ++ ["src"; ?x]) with (mod_dir ++ ["src"] ++ [x]);
            rewrite app_assoc; by apply removelast_last).
  left. by apply path_parent_snoc, is_root_snoc.
Qed.

(** *** The whole run *)

Section unobstructed_run.
Context (output_dir templates_dir : path) (config : gmap string string).
Context (mod_id mod_name : string) (w : world).

#[local] Abbreviation the_mod_dir := (output_dir // mod_id).
#[local] Abbreviation the_plan :=
  (planned_write the_mod_dir (the_mod_dir // "src") templates_dir config mod_id).
#[local] Abbreviation the_message :=
  (loop_message the_mod_dir (the_mod_dir // "src") templates_dir mod_id).
#[local] Abbreviation the_readme := (the_mod_dir ++ ["README.md"]).

Hypothesis Hid : config !! "mod_id" = Some mod_id.
Hypothesis Hname : config !! "mod_name" = Some mod_name.
Hypothesis Htree : tree_unobstructed (files w) the_mod_dir.
Hypothesis Hready :
  Forall (template_ready (files w) the_mod_dir templates_dir config mod_id) TEMPLATES.

Lemma ready_stat (fs4 : gmap path node) (entry : string * string) :
  adds_dirs (made_dirs the_mod_dir) (files w) fs4 → entry ∈ TEMPLATES →
  stat fs4 (templates_dir // entry.2) = stat (files w) (templates_dir // entry.2).
Proof.
  intros A Hin.
  pose proof (proj1 (Forall_forall _ _) Hready entry Hin) as Hentry.
  unfold template_ready in Hentry.
  destruct (stat (files w) (templates_dir // entry.2)) as [n|] eqn:E.
  - by eapply adds_dirs_stat_Some.
  - rewrite <- E. eapply adds_dirs_stat_away; [exact A |].
    eapply not_made_dirs; [by apply template_path_last_char | done..].
Qed.

Lemma ready_out_away (entry : string * string) :
  entry ∈ TEMPLATES → ¬ made_dirs the_mod_dir (the_mod_dir ++ out_rel mod_id entry.1).
Proof.
  intros Hin. destruct (out_rel_last_char mod_id entry Hin) as (c & Hc & ? & ? & ? & ? & _).
  destruct (out_rel_parent the_mod_dir mod_id entry Hin) as [Hne _].
  eapply (not_made_dirs _ _ c); [| done.. | by apply not_prefix_app].
  unfold path_last_char in *. rewrite last_app.
  by destruct (last (out_rel mod_id entry.1)).
Qed.

Lemma ready_ok (fs4 : gmap path node) (entry : string * string) :
  adds_dirs (made_dirs the_mod_dir) (files w) fs4 →
  stat fs4 the_mod_dir = Some Dir → stat fs4 (the_mod_dir ++ ["src"]) = Some Dir →
  entry ∈ TEMPLATES →
  entry_ok the_mod_dir (the_mod_dir // "src") templates_dir config mod_id fs4 entry.
Proof.
  intros A D1 D4 Hin. unfold entry_ok. rewrite (ready_stat fs4 entry A Hin).
  pose proof (proj1 (Forall_forall _ _) Hready entry Hin) as Hentry.
  unfold template_ready in Hentry.
  destruct (stat (files w) (templates_dir // entry.2)) as [[|content]|]; [done | | done].
  destruct Hentry as (Hplain & [rs Hrs] & Hout).
  rewrite out_path_rel by done.
  rewrite (adds_dirs_stat_away _ _ _ _ A (ready_out_away entry Hin)).
  split; [| split; [done |]].
  - exists (apply_replacements rs content). unfold replace_placeholders. by rewrite Hrs.
  - intros _. by destruct (out_rel_parent the_mod_dir mod_id entry Hin) as [_ [-> | ->]].
Qed.

(** The run succeeds; its file system is the one after the directories are
    made, with the rendered templates and the README written. *)
Lemma run_ok :
  ∃ fs4,
    adds_dirs (made_dirs the_mod_dir) (files w) fs4 ∧
    stat fs4 the_mod_dir = Some Dir ∧
    stat fs4 (the_mod_dir ++ ["bin"; "Win64_Shipping_Client"]) = Some Dir ∧
    stat fs4 (the_mod_dir ++ ["ModuleData"]) = Some Dir ∧
    stat fs4 (the_mod_dir ++ ["src"]) = Some Dir ∧
    settled fs4 (<[the_readme := File (readme_content mod_name mod_id)]>
                   (apply_writes (TEMPLATES ≫= the_plan fs4) fs4)) ∧
    create_mod_structure output_dir config templates_dir w
    = (inr tt,
       World (<[the_readme := File (readme_content mod_name mod_id)]>
                (apply_writes (TEMPLATES ≫= the_plan fs4) fs4))
             (stdout w ++ (the_message fs4 <$> TEMPLATES)
                       ++ closing_lines the_mod_dir mod_id)).
Proof.
  destruct (run_makes_dirs the_mod_dir w Htree)
    as (w1 & w2 & w3 & w4 & H1 & H2 & H3 & H4 & O4 & A & D1 & D2 & D3 & D4).
  exists (files w4). do 5 (split; [done |]).
  destruct (for_each_ok the_mod_dir (the_mod_dir // "src") templates_dir config mod_id
              TEMPLATES w4 Forall_TEMPLATES) as [H5 S5].
  { apply Forall_forall. intros entry Hin. by apply ready_ok. }
  match type of H5 with _ = (_, ?x) => set (w5 := x) in * end.
  assert (stat (files w4) the_readme ≠ Some Dir) as R4.
  { rewrite (adds_dirs_stat_away _ _ _ _ A); [by destruct Htree as (_ & _ & _ & ?) |].
    eapply (not_made_dirs _ _ "d"); [by rewrite path_last_char_snoc | done.. |].
    by apply not_prefix_app. }
  assert (stat (files w5) the_readme ≠ Some Dir) as R5.
  { intros Hd. by apply S5 in Hd. }
  assert (settled (files w5) (<[the_readme := File (readme_content mod_name mod_id)]>
                                (files w5))) as S6.
  { apply settled_write; [done |]. by rewrite path_last_char_snoc. }
  split; [by eapply settled_trans |].
  rewrite (create_mod_structure_steps output_dir config templates_dir mod_id mod_name
             w w1 w2 w3 w4 w5
             (World (<[the_readme := File (readme_content mod_name mod_id)]> (files w5))
                    (stdout w5)) Hid Hname).
  - unfold w5. cbn [files stdout]. by rewrite O4, <- app_assoc.
  - unfold run_steps. rewrite (path_join_plain the_mod_dir "README.md") by done.
    repeat split; try done.
    apply write_text_ok; [done |]. intros _.
    rewrite path_parent_snoc by by apply is_root_snoc. by apply S5.
Qed.
End unobstructed_run.

(** *** What the run leaves *)

Section final_files.
Context (mod_dir templates_dir : path) (config : gmap string string).
Context (mod_id : string) (fs4 : gmap path node) (text : string).

#[local] Abbreviation plan_of :=
  (planned_write mod_dir (mod_dir // "src") templates_dir config mod_id).
#[local] Abbreviation final :=
  (<[mod_dir ++ ["README.md"] := File text]> (apply_writes (TEMPLATES ≫= plan_of fs4) fs4)).

Lemma readme_not_output (entry : string * string) :
  entry ∈ TEMPLATES → mod_dir ++ ["README.md"] ≠ mod_dir ++ out_rel mod_id entry.1.
Proof.
  intros Hin E. apply app_inv_head in E.
  destruct (out_rel_last_char mod_id entry Hin) as (c & Hc & _ & _ & _ & _ & Hd).
  rewrite <- E in Hc. by injection Hc as <-.
Qed.


Lemma plan_NoDup :
  char_in "/" mod_id = false → NoDup (TEMPLATES ≫= plan_of fs4).*1.
Proof.
  intros Hplain.
  apply (sublist_NoDup _ ((λ entry, mod_dir ++ out_rel mod_id entry.1) <$> TEMPLATES)).
  - replace ((λ entry : string * string, mod_dir ++ out_rel mod_id entry.1) <$> TEMPLATES)
      with (app mod_dir <$> ((λ entry : string * string, out_rel mod_id entry.1)
                               <$> TEMPLATES))
      by (by rewrite <- list_fmap_compose).
    apply NoDup_fmap_2; [apply _ | apply out_rel_NoDup].
  - pose proof Forall_TEMPLATES as H.
    induction H as [|entry table Hin _ IH]; [done |].
    rewrite bind_cons, fmap_app, fmap_cons.
    unfold planned_write at 1.
    destruct (stat fs4 (templates_dir // entry.2)) as [[|content]|];
      [by apply sublist_cons | | by apply sublist_cons].
    destruct (replace_placeholders content config) as [e | t];
      [by apply sublist_cons |].
    simpl. rewrite out_path_rel by done. by apply sublist_skip.
Qed.

(** A template that is there: its output holds the rendered text. *)
Lemma final_lookup_present (entry : string * string) (content : string)
    (rs : list (string * string)) :
  char_in "/" mod_id = false → entry ∈ TEMPLATES →
  stat fs4 (templates_dir // entry.2) = Some (File content) →
  replacements config = inr rs →
  final !! (mod_dir ++ out_rel mod_id entry.1)
  = Some (File (apply_replacements rs content)).
Proof.
  intros Hplain Hin Hstat Hrs.
  rewrite lookup_insert_ne by by apply readme_not_output.
  apply apply_writes_lookup; [by apply plan_NoDup |].
  apply list_elem_of_bind. exists entry. split; [| done].
  unfold planned_write, replace_placeholders. rewrite Hstat, Hrs. simpl.
  rewrite out_path_rel by done. by apply list_elem_of_singleton.
Qed.

End final_files.

(** ** Properties of a whole run *)

Lemma path_prefixes_elem (q p : path) : q `prefix_of` p → q ∈ path_prefixes p.
Proof.
  revert q. induction p as [|a p IH]; intros q [k E].
  - symmetry in E. apply app_eq_nil in E as [-> _]. by apply list_elem_of_singleton.
  - destruct q as [|b q]; simpl; [by left |].
    injection E as <- E. right.
    apply list_elem_of_fmap_2, IH. by exists k.
Qed.

Lemma tree_unobstructed_check (fs : gmap path node) (mod_dir : path) :
  tree_unobstructed_b fs mod_dir = true → tree_unobstructed fs mod_dir.
Proof.
  unfold tree_unobstructed_b, tree_unobstructed, is_file_at, is_dir_at.
  rewrite !andb_true_iff, !negb_true_iff, forallb_forall.
  intros [[[Hway Hdata] Hsrc] Hreadme]. repeat split.
  - intros q c Hq Hc. apply path_prefixes_elem, list_elem_of_In, Hway in Hq.
    by rewrite Hc in Hq.
  - intros c Hc. by rewrite Hc in Hdata.
  - intros c Hc. by rewrite Hc in Hsrc.
  - intros Hc. by rewrite Hc in Hreadme.
Qed.

Lemma plain_name_join (p : path) (name : string) :
  plain_name name = true → char_in "/" name = false ∧ p // name = p ++ [name].
Proof.
  unfold plain_name. rewrite !andb_true_iff, !negb_true_iff.
  intros [[Hslash Hname] _]. split; [done |].
  assert (path_root name = None) as Hroot.
  { destruct name as [|c s]; [done |]. simpl in Hslash.
    apply orb_false_elim in Hslash as [Hc _]. apply ascii_eqb_false in Hc.
    simpl. destruct c as [[] [] [] [] [] [] [] []]; try done. }
  unfold path_join, Path. rewrite Hroot, split_slash_plain by done.
  by rewrite filter_cons_True, filter_nil.
Qed.

(** C4, as stated, fails: with all five templates in place and the mod id
    ["a/b"], the run stops with [FileNotFoundError] at the settings file,
    whose directory [src/a] nobody made; no README is written. *)
Lemma layout_fails_for_mod_id_with_slash :
  templates_exist (files full_world) ["tpl"] ∧
  slash_config !! "mod_id" = Some "a/b" ∧
  (create_mod_structure ["out"] slash_config ["tpl"] full_world).1
  = inl (FileNotFoundError ["out"; "a"; "b"; "src"; "a"; "bSettings.cs"]) ∧
  files (create_mod_structure ["out"] slash_config ["tpl"] full_world).2
    !! ["out"; "a"; "b"; "README.md"] = None.
Proof.
  split.
  { intros entry Hin. unfold TEMPLATES in Hin.
    repeat (apply elem_of_cons in Hin as [-> | Hin]); [.. | by apply elem_of_nil in Hin];
      by eexists. }
  split; [by vm_compute |]. split; by vm_compute.
Qed.

Lemma ready_from_hyps (fs : gmap path node) (mod_dir templates_dir : path)
    (config : gmap string string) (mod_id : string) (rs : list (string * string)) :
  char_in "/" mod_id = false → replacements config = inr rs →
  outputs_unobstructed fs mod_dir mod_id →
  (∀ entry, entry ∈ TEMPLATES → stat fs (templates_dir // entry.2) ≠ Some Dir) →
  templates_apart mod_dir templates_dir →
  Forall (template_ready fs mod_dir templates_dir config mod_id) TEMPLATES.
Proof.
  intros Hplain Hrs Hout Hfile Hapart. apply Forall_forall. intros entry Hin.
  unfold template_ready. specialize (Hfile entry Hin).
  destruct (stat fs (templates_dir // entry.2)) as [[|content]|]; [done | | by apply Hapart].
  split; [done |]. split; [by exists rs |].
  rewrite <- out_path_rel by done. by apply Hout.
Qed.


(** C4, amended: for a configuration whose mod id is one ordinary path part
    (no slash, not empty, not [.] or [..]) and that has the keys to render
    a template, when all five templates are regular files and nothing
    obstructs the outputs, [create_mod_structure] returns and leaves: a root
    directory named after the mod id with the directories
    [bin/Win64_Shipping_Client], [ModuleData] and [src];
    [SubModule.xml] and [README.md] at the root; and in [src] the files
    [<mod_id>.csproj], [<mod_id>Behavior.cs], [<mod_id>Settings.cs] and
    [SubModule.cs], each holding its rendered template. *)
Theorem create_mod_structure_layout (output_dir templates_dir : path)
    (config : gmap string string) (mod_id mod_name : string)
    (rs : list (string * string)) (w : world) :
  config !! "mod_id" = Some mod_id → config !! "mod_name" = Some mod_name →
  replacements config = inr rs →
  plain_name mod_id = true →
  templates_exist (files w) templates_dir →
  tree_unobstructed (files w) (output_dir // mod_id) →
  outputs_unobstructed (files w) (output_dir // mod_id) mod_id →
  let mod_dir := output_dir ++ [mod_id] in
  let rendered name :=
    File (apply_replacements rs (template_text (files w) templates_dir name)) in
  ∃ w',
    create_mod_structure output_dir config templates_dir w = (inr tt, w') ∧
    stat (files w') mod_dir = Some Dir ∧
    stat (files w') (mod_dir ++ ["bin"; "Win64_Shipping_Client"]) = Some Dir ∧
    stat (files w') (mod_dir ++ ["ModuleData"]) = Some Dir ∧
    stat (files w') (mod_dir ++ ["src"]) = Some Dir ∧
    files w' !! (mod_dir ++ ["SubModule.xml"]) = Some (rendered "SubModule.xml.template") ∧
    files w' !! (mod_dir ++ ["README.md"])
      = Some (File (readme_content mod_name mod_id)) ∧
    files w' !! (mod_dir ++ ["src"; mod_id +:+ ".csproj"])
      = Some (rendered "ModProject.csproj.template") ∧
    files w' !! (mod_dir ++ ["src"; mod_id +:+ "Behavior.cs"])
      = Some (rendered "CampaignBehavior.cs.template") ∧
    files w' !! (mod_dir ++ ["src"; mod_id +:+ "Settings.cs"])
      = Some (rendered "ModSettings.cs.template") ∧
    files w' !! (mod_dir ++ ["src"; "SubModule.cs"])
      = Some (rendered "SubModule.cs.template").
Proof.
  intros Hid Hname Hrs Hplain Hexist Htree Hout mod_dir rendered.
  destruct (plain_name_join output_dir mod_id Hplain) as [Hslash Hdir].
  subst mod_dir. rewrite <- Hdir. set (mod_dir := output_dir // mod_id) in *.
  assert (Forall (template_ready (files w) mod_dir templates_dir config mod_id) TEMPLATES)
    as Hready.
  { apply (ready_from_hyps _ _ _ _ _ rs); try done.
    - intros entry Hin. destruct (Hexist entry Hin) as [c ->]. done.
    - intros entry Hin Hpre. destruct (Hexist entry Hin) as [c Hc].
      destruct Htree as (Hway & _).
      apply (Hway (templates_dir // entry.2) c); [| done].
      etrans; [exact Hpre |]. by apply prefix_app_r. }
  destruct (run_ok output_dir templates_dir config mod_id mod_name w Hid Hname Htree Hready)
    as (fs4 & A & D1 & D2 & D3 & D4 & S & Hrun).
  fold mod_dir in A, D1, D2, D3, D4, S, Hrun.
  eexists. split; [exact Hrun |]. cbn [files].
  do 4 (split; [by apply S |]).
  assert (∀ entry, entry ∈ TEMPLATES →
    (<[mod_dir ++ ["README.md"] := File (readme_content mod_name mod_id)]>
       (apply_writes (TEMPLATES ≫= planned_write mod_dir (mod_dir // "src")
                        templates_dir config mod_id fs4) fs4))
      !! (mod_dir ++ out_rel mod_id entry.1) = Some (rendered entry.2)) as Hfile.
  { intros entry Hin. destruct (Hexist entry Hin) as [c Hc].
    unfold rendered, template_text. rewrite Hc.
    apply final_lookup_present; try done. by eapply adds_dirs_stat_Some. }
  split; [apply (Hfile ("SubModule.xml", "SubModule.xml.template")); compute_done |].
  split; [by rewrite lookup_insert_eq |].
  split; [apply (Hfile ("Project.csproj", "ModProject.csproj.template")); compute_done |].
  split; [apply (Hfile ("Behavior.cs", "CampaignBehavior.cs.template")); compute_done |].
  split; [apply (Hfile ("ModSettings.cs", "ModSettings.cs.template")); compute_done |].
  apply (Hfile ("SubModule.cs", "SubModule.cs.template")); compute_done.
Qed.

Ltac each_template H :=
  unfold TEMPLATES in H;
  repeat (apply elem_of_cons in H as [-> | H]);
  [.. | by apply elem_of_nil in H].

Lemma create_mod_structure_layout_witness :
  ∃ w',
    create_mod_structure ["out"] sample_config ["tpl"] full_world = (inr tt, w') ∧
    stat (files w') ["out"; "MyMod"; "bin"; "Win64_Shipping_Client"] = Some Dir ∧
    files w' !! ["out"; "MyMod"; "src"; "MyModSettings.cs"]
      = Some (File "class MyModSettings {}").
Proof.
  destruct (create_mod_structure_layout ["out"] ["tpl"] sample_config "MyMod" "My Mod"
              sample_replacements full_world)
    as (w' & Hrun & _ & Hbin & _ & _ & _ & _ & _ & _ & Hsettings & _).
  - vm_compute. reflexivity.
  - vm_compute. reflexivity.
  - vm_compute. reflexivity.
  - reflexivity.
  - intros entry Hin. each_template Hin; eexists; vm_compute; reflexivity.
  - apply tree_unobstructed_check. vm_compute. reflexivity.
  - intros entry Hin. each_template Hin; vm_compute; discriminate.
  - exists w'. split; [exact Hrun |]. split; [exact Hbin |].
    refine (eq_trans Hsettings _). vm_compute. reflexivity.
Defined.




